(** * hdf5-iotest: the driver of src/hdf5_iotest.c

    A shallow embedding of [main] and [set_libver_bounds]: the process-grid
    mapping, the local extents, the mode flags, the version bounds, the
    reductions and rates computed on rank 0, the CSV record, and the sequence
    of collective calls every process goes through. *)

From Stdlib Require Import ZArith List Bool Lia String Ascii.
From Stdlib Require Import Decimal DecimalString.
From Stdlib Require Import Floats.
Import ListNotations.
Local Open Scope string_scope.
Local Open Scope list_scope.
Local Open Scope Z_scope.

(** ** C strings and [strncmp] *)

Module CString.

(** A [string] stands for the content of a [char] array; reading past its
    end yields the terminating NUL. *)
Definition NUL : ascii := Ascii.zero.

Definition head (s : string) : ascii :=
  match s with
  | EmptyString => NUL
  | String c _ => c
  end.

Definition tail (s : string) : string :=
  match s with
  | EmptyString => EmptyString
  | String _ r => r
  end.

Definition uchar (c : ascii) : Z := Z.of_N (N_of_ascii c).

(** [strncmp s1 s2 n]: compares at most [n] characters, stops after a NUL,
    returns the difference of the first two characters that differ. *)
Fixpoint strncmp (s1 s2 : string) (n : nat) : Z :=
  match n with
  | O => 0
  | S n' =>
      let c1 := head s1 in
      let c2 := head s2 in
      if Ascii.eqb c1 c2
      then if Ascii.eqb c1 NUL then 0 else strncmp (tail s1) (tail s2) n'
      else uchar c1 - uchar c2
  end.

(** The C string held by an array: its characters before the first NUL. *)
Fixpoint cstr (s : string) : string :=
  match s with
  | EmptyString => EmptyString
  | String c r => if Ascii.eqb c NUL then EmptyString else String c (cstr r)
  end.

(** The first [n] characters. *)
Fixpoint strn (n : nat) (s : string) : string :=
  match n, s with
  | O, _ => EmptyString
  | _, EmptyString => EmptyString
  | S n', String c r => String c (strn n' r)
  end.

Fixpoint NUL_free (s : string) : bool :=
  match s with
  | EmptyString => true
  | String c r => negb (Ascii.eqb c NUL) && NUL_free r
  end.

End CString.
Import CString.

(** ** The configuration record *)

(** Modelled from the spec: the [configuration] struct that [main] fills,
    broadcasts and reads (its declaration is in a header that is not part of
    the sources).  Fields are the ones [main] and [set_libver_bounds] read;
    numbers are values of their C types, the strings are [char] arrays.
    [rows] and [cols] are [unsigned long] like [my_rows] and [my_cols]; the
    counts printed with [%d] are [int]. *)
Record configuration : Type := mk_configuration {
  steps : Z;
  arrays : Z;
  rows : Z;
  cols : Z;
  scaling : string;
  proc_rows : Z;
  proc_cols : Z;
  slowest_dimension : string;
  rank : Z;
  alignment_increment : Z;
  alignment_threshold : Z;
  layout : string;
  fill_values : string;
  mpi_io : string;
  libver_bound_low : string;
  libver_bound_high : string;
  hdf5_file : string;
  csv_file : string
}.

(** ** C integer arithmetic used by [main] *)

(** [a / b] and [a % b] on [int]: truncation toward zero; a zero divisor has
    no defined result. *)
Definition int_div (a b : Z) : option Z :=
  if b =? 0 then None else Some (Z.quot a b).

Definition int_mod (a b : Z) : option Z :=
  if b =? 0 then None else Some (Z.rem a b).

(** Conversion of an [int] operand to [unsigned long]. *)
Definition ulong_of_int (z : Z) : Z :=
  if z <? 0 then z + 2 ^ 64 else z.

(** [a / b] on [unsigned long] operands. *)
Definition ulong_div (a b : Z) : option Z :=
  if b =? 0 then None else Some (a / b).

(** ** Process grid and local extent (lines 72-77) *)

Definition my_proc_row (config : configuration) (mpi_rank : Z) : option Z :=
  int_div mpi_rank (proc_cols config).

Definition my_proc_col (config : configuration) (mpi_rank : Z) : option Z :=
  int_mod mpi_rank (proc_cols config).

Definition grid_coordinate (config : configuration) (mpi_rank : Z)
  : option (Z * Z) :=
  match my_proc_row config mpi_rank, my_proc_col config mpi_rank with
  | Some r, Some c => Some (r, c)
  | _, _ => None
  end.

Definition strong_scaling_flg (config : configuration) : bool :=
  strncmp (scaling config) "strong" 16 =? 0.

Definition my_rows (config : configuration) : option Z :=
  if strong_scaling_flg config
  then ulong_div (rows config) (ulong_of_int (proc_rows config))
  else Some (rows config).

Definition my_cols (config : configuration) : option Z :=
  if strong_scaling_flg config
  then ulong_div (cols config) (ulong_of_int (proc_cols config))
  else Some (cols config).

Definition local_extent (config : configuration) : option (Z * Z) :=
  match my_rows config, my_cols config with
  | Some r, Some c => Some (r, c)
  | _, _ => None
  end.

(** ** Transfer mode (lines 79-84) *)

Inductive H5FD_mpio_xfer_t : Type :=
| H5FD_MPIO_INDEPENDENT
| H5FD_MPIO_COLLECTIVE.

Definition coll_mpi_io_flg (config : configuration) : bool :=
  strncmp (mpi_io config) "collective" 16 =? 0.

Definition dxpl_mpio (config : configuration) : H5FD_mpio_xfer_t :=
  if coll_mpi_io_flg config then H5FD_MPIO_COLLECTIVE
  else H5FD_MPIO_INDEPENDENT.

(** ** Sample configurations: the end-to-end scenarios of the design *)

Definition scenario (sc : string) (r c pr pc : Z) : configuration :=
  {| steps := 1; arrays := 1; rows := r; cols := c; scaling := sc;
     proc_rows := pr; proc_cols := pc; slowest_dimension := "step";
     rank := 2; alignment_increment := 1; alignment_threshold := 0;
     layout := "contiguous"; fill_values := "true"; mpi_io := "independent";
     libver_bound_low := "earliest"; libver_bound_high := "latest";
     hdf5_file := "hdf5_iotest.h5"; csv_file := "hdf5_iotest.csv" |}.

Definition scenario_A : configuration := scenario "strong" 10 10 1 1.
Definition scenario_B : configuration := scenario "strong" 20 20 2 2.
Definition scenario_C : configuration := scenario "weak" 10 10 2 2.

(** ** Doubles, reductions and rates (lines 138-172) *)

(** C [double] is IEEE 754 binary64, the format of the primitive [float]. *)
Definition double : Type := float.

(** Conversion of an integer to [double] (round to nearest even). *)
Definition double_of_Z (z : Z) : double :=
  SF2Prim (binary_normalize prec emax z 0 false).

(** The five elapsed times a process holds when it reaches the reductions. *)
Record timing : Type := mk_timing {
  write_phase : double;
  create_time : double;
  write_time : double;
  read_phase : double;
  read_time : double
}.

Inductive MPI_Op : Type :=
| MPI_MIN
| MPI_MAX.

Definition mpi_combine (op : MPI_Op) (a b : double) : double :=
  match op with
  | MPI_MIN => if (b <? a)%float then b else a
  | MPI_MAX => if (a <? b)%float then b else a
  end.

(** Modelled from the spec: reduce(value, op, root) of the coordination
    layer, as seen on the root: the send buffers of all ranks, in rank order,
    combined with [op]; the receive buffer keeps its content when there is no
    contribution. *)
Definition MPI_Reduce (op : MPI_Op) (sendbufs : list double) (recvbuf : double)
  : double :=
  match sendbufs with
  | [] => recvbuf
  | v :: vs => fold_left (mpi_combine op) vs v
  end.

(** The ten reduction results on rank 0. *)
Record statistics : Type := mk_statistics {
  min_write_phase : double;
  max_write_phase : double;
  min_create_time : double;
  max_create_time : double;
  min_write_time : double;
  max_write_time : double;
  min_read_phase : double;
  max_read_phase : double;
  min_read_time : double;
  max_read_time : double
}.

(** Lines 138-163: every result starts at 0.0 and receives one reduction. *)
Definition reduce_all (procs : list timing) : statistics :=
  {| min_write_phase := MPI_Reduce MPI_MIN (map write_phase procs) 0%float;
     max_write_phase := MPI_Reduce MPI_MAX (map write_phase procs) 0%float;
     min_create_time := MPI_Reduce MPI_MIN (map create_time procs) 0%float;
     max_create_time := MPI_Reduce MPI_MAX (map create_time procs) 0%float;
     min_write_time := MPI_Reduce MPI_MIN (map write_time procs) 0%float;
     max_write_time := MPI_Reduce MPI_MAX (map write_time procs) 0%float;
     min_read_phase := MPI_Reduce MPI_MIN (map read_phase procs) 0%float;
     max_read_phase := MPI_Reduce MPI_MAX (map read_phase procs) 0%float;
     min_read_time := MPI_Reduce MPI_MIN (map read_time procs) 0%float;
     max_read_time := MPI_Reduce MPI_MAX (map read_time procs) 0%float |}.

(** Line 167-168: [(double)config.steps*config.arrays*my_rows*my_cols*sizeof(double)],
    every product taken in [double]. *)
Definition byte_count (config : configuration) (my_rows my_cols : Z) : double :=
  (double_of_Z (steps config) * double_of_Z (arrays config)
   * double_of_Z my_rows * double_of_Z my_cols * double_of_Z 8)%float.

Record rates : Type := mk_rates {
  min_write_rate : double;
  max_write_rate : double;
  min_read_rate : double;
  max_read_rate : double
}.

(** [1024*1024] is an [int] product, converted for the product with the time. *)
Definition MiB : double := double_of_Z (1024 * 1024).

(** Lines 169-172. *)
Definition compute_rates (byte_count : double) (st : statistics) : rates :=
  {| min_write_rate := (byte_count / (MiB * max_write_time st))%float;
     max_write_rate := (byte_count / (MiB * min_write_time st))%float;
     min_read_rate := (byte_count / (MiB * max_read_time st))%float;
     max_read_rate := (byte_count / (MiB * min_read_time st))%float |}.

(** What rank 0 holds at line 172, given the times of all processes in rank
    order: the reduction results and the four rates. *)
Definition rank0_summary (config : configuration) (procs : list timing)
  : option (statistics * rates) :=
  match local_extent config with
  | Some (r, c) =>
      let st := reduce_all procs in
      Some (st, compute_rates (byte_count config r c) st)
  | None => None
  end.

(** A time is a number: it compares equal to itself. *)
Definition is_number (x : double) : bool := (x =? x)%float.

Definition timing_numbers (t : timing) : bool :=
  is_number (write_phase t) && is_number (create_time t)
  && is_number (write_time t) && is_number (read_phase t)
  && is_number (read_time t).

Definition sample_timings : list timing :=
  [ mk_timing 2.5 0.5 1.5 1.25 1 ;
    mk_timing 3 0.25 2 1.5 0.75 ;
    mk_timing 2.75 0.5 1 1 0.5 ;
    mk_timing 2 0.75 1.75 1.75 1.5 ]%float.

(** ** The order on doubles *)

(** Numbers (not NaN) are ordered lexicographically by class and sign, then
    exponent, then mantissa; [sf_key] is that key. *)
Definition sf_key (x : spec_float) : option (Z * Z * Z) :=
  match x with
  | S754_nan => None
  | S754_infinity s => Some (if s then -2 else 2, 0, 0)
  | S754_zero _ => Some (0, 0, 0)
  | S754_finite s m e =>
      Some (if s then (-1, - e, Z.neg m) else (1, e, Z.pos m))
  end.

Definition key_lt (a b : Z * Z * Z) : Prop :=
  let '(a1, a2, a3) := a in
  let '(b1, b2, b3) := b in
  a1 < b1 \/ (a1 = b1 /\ (a2 < b2 \/ (a2 = b2 /\ a3 < b3))).

Definition key_le (a b : Z * Z * Z) : Prop :=
  let '(a1, a2, a3) := a in
  let '(b1, b2, b3) := b in
  a1 < b1 \/ (a1 = b1 /\ (a2 < b2 \/ (a2 = b2 /\ a3 <= b3))).

(** [m] is a greatest (least) element of [l] for the comparison of doubles. *)
Definition is_maximum (l : list double) (m : double) : Prop :=
  In m l /\ Forall (fun t => (t <=? m)%float = true) l.

Definition is_minimum (l : list double) (m : double) : Prop :=
  In m l /\ Forall (fun t => (m <=? t)%float = true) l.

Definition numbers (l : list double) : Prop :=
  Forall (fun t => is_number t = true) l.

(** ** Version bounds: [set_libver_bounds] (lines 227-289) *)

(** What [H5get_libversion] reports, which is also the version of the headers
    the program is compiled against. *)
Record libversion : Type := mk_libversion {
  majnum : N;
  minnum : N;
  relnum : N
}.

(** The macro [H5_VERSION_GE(Maj,Min,Rel)] of the HDF5 public header. *)
Definition H5_VERSION_GE (v : libversion) (Maj Min Rel : N) : bool :=
  ((majnum v =? Maj) && (minnum v =? Min) && (Rel <=? relnum v))%N
  || ((majnum v =? Maj) && (Min <? minnum v))%N
  || (Maj <? majnum v)%N.

(** The enumeration [H5F_libver_t] of the HDF5 public header: the named
    versions keep their value in every release, [H5F_LIBVER_LATEST] is the
    highest version of the release at hand. *)
Definition H5F_LIBVER_EARLIEST : Z := 0.
Definition H5F_LIBVER_V18 : Z := 1.
Definition H5F_LIBVER_V110 : Z := 2.
Definition H5F_LIBVER_V112 : Z := 3.
Definition H5F_LIBVER_V114 : Z := 4.

Definition H5F_LIBVER_LATEST (v : libversion) : Z :=
  if H5_VERSION_GE v 1 13 0 then H5F_LIBVER_V114
  else if H5_VERSION_GE v 1 12 0 then H5F_LIBVER_V112
  else if H5_VERSION_GE v 1 10 0 then H5F_LIBVER_V110
  else 1.

(** [strncmp(s, literal, 16) == 0]. *)
Definition streq16 (s literal : string) : bool :=
  strncmp s literal 16 =? 0.

(** Lines 230 and 235-257: the low bound. *)
Definition libver_low (v : libversion) (s : string) : Z :=
  if negb (streq16 s "earliest")
  then
    if streq16 s "v18"
    then (if H5_VERSION_GE v 1 10 0 then H5F_LIBVER_V18
          else H5F_LIBVER_LATEST v)
    else if streq16 s "v110"
    then (if H5_VERSION_GE v 1 12 0 then H5F_LIBVER_V110
          else H5F_LIBVER_LATEST v)
    else if streq16 s "v112"
    then (if H5_VERSION_GE v 1 13 0 then H5F_LIBVER_V112
          else H5F_LIBVER_LATEST v)
    else H5F_LIBVER_LATEST v
  else H5F_LIBVER_EARLIEST.

(** Lines 230 and 259-279: the high bound; no final [else], the initial
    [H5F_LIBVER_LATEST] stays. *)
Definition libver_high (v : libversion) (s : string) : Z :=
  if negb (streq16 s "latest")
  then
    if streq16 s "v18"
    then (if H5_VERSION_GE v 1 10 0 then H5F_LIBVER_V18
          else H5F_LIBVER_LATEST v)
    else if streq16 s "v110"
    then (if H5_VERSION_GE v 1 12 0 then H5F_LIBVER_V110
          else H5F_LIBVER_LATEST v)
    else if streq16 s "v112"
    then (if H5_VERSION_GE v 1 13 0 then H5F_LIBVER_V112
          else H5F_LIBVER_LATEST v)
    else H5F_LIBVER_LATEST v
  else H5F_LIBVER_LATEST v.

(** Line 233. *)
Definition libversion_asserted (v : libversion) : bool :=
  ((majnum v =? 1) && (8 <=? minnum v) && (minnum v <=? 13))%N.

Inductive asserted (A : Type) : Type :=
| Passed (a : A)
| AssertionFailed (expr : string).
Arguments Passed {A} a.
Arguments AssertionFailed {A} expr.

(** The two assertions of [set_libver_bounds] on values the program computes,
    and the bounds handed to [H5Pset_libver_bounds]. *)
Definition libver_bounds (v : libversion) (config : configuration)
  : asserted (Z * Z) :=
  if negb (libversion_asserted v)
  then AssertionFailed "majnum == 1 && minnum >= 8 && minnum <= 13"
  else
    let low := libver_low v (libver_bound_low config) in
    let high := libver_high v (libver_bound_high config) in
    if negb (low <=? high) then AssertionFailed "low <= high"
    else Passed (low, high).

(** The version a bound string pins, when the library at hand provides it. *)
Definition pinned_version (v : libversion) (s : string) : option Z :=
  if String.eqb s "v18"
  then (if H5_VERSION_GE v 1 10 0 then Some 1 else None)
  else if String.eqb s "v110"
  then (if H5_VERSION_GE v 1 12 0 then Some 2 else None)
  else if String.eqb s "v112"
  then (if H5_VERSION_GE v 1 13 0 then Some 3 else None)
  else None.

Definition with_bounds (config : configuration) (low high : string)
  : configuration :=
  {| steps := steps config; arrays := arrays config; rows := rows config;
     cols := cols config; scaling := scaling config;
     proc_rows := proc_rows config; proc_cols := proc_cols config;
     slowest_dimension := slowest_dimension config; rank := rank config;
     alignment_increment := alignment_increment config;
     alignment_threshold := alignment_threshold config;
     layout := layout config; fill_values := fill_values config;
     mpi_io := mpi_io config;
     libver_bound_low := low; libver_bound_high := high;
     hdf5_file := hdf5_file config; csv_file := csv_file config |}.

Definition hdf5_1_12 : libversion := mk_libversion 1 12 0.
Definition hdf5_1_10 : libversion := mk_libversion 1 10 6.

(** ** Formatted output: the conversions [main] uses *)

Definition LF : ascii := ascii_of_nat 10.

(** [%d] of an [int]. *)
Definition decimal (z : Z) : string := NilZero.string_of_int (Z.to_int z).

(** [%ld] reads its argument as a [long]. *)
Definition long_of_ulong (z : Z) : Z :=
  let w := z mod 2 ^ 64 in
  if w <? 2 ^ 63 then w else w - 2 ^ 64.

(** [n * 2^e] rounded to the nearest integer, ties to even. *)
Definition round_half_even (n e : Z) : Z :=
  if 0 <=? e then n * 2 ^ e
  else
    let d := 2 ^ (- e) in
    let q := n / d in
    let r := n mod d in
    if 2 * r <? d then q
    else if d <? 2 * r then q + 1
    else if Z.even q then q else q + 1.

Fixpoint zeros (n : nat) : string :=
  match n with
  | O => EmptyString
  | S k => String "0" (zeros k)
  end.

Definition zero_pad (width : nat) (s : string) : string :=
  (zeros (width - String.length s) ++ s)%string.

(** The digits of [n / 10^p] with [p] fraction digits, [n >= 0]. *)
Definition fixed_digits (p : nat) (n : Z) : string :=
  let scale := 10 ^ Z.of_nat p in
  (decimal (n / scale)
   ++ match p with
      | O => EmptyString
      | S _ => String "." (zero_pad p (decimal (n mod scale)))
      end)%string.

Definition sign_prefix (s : bool) : string :=
  if s then "-" else EmptyString.

(** [%.pf] of a [double]: the exact value rounded to [p] fraction digits. *)
Definition format_f (p : nat) (d : double) : string :=
  match Prim2SF d with
  | S754_nan => "nan"
  | S754_infinity s => (sign_prefix s ++ "inf")%string
  | S754_zero s => (sign_prefix s ++ fixed_digits p 0)%string
  | S754_finite s m e =>
      (sign_prefix s
       ++ fixed_digits p (round_half_even (Z.pos m * 10 ^ Z.of_nat p) e))%string
  end.

Inductive conversion : Type :=
| Conv_d
| Conv_ld
| Conv_s
| Conv_f (precision : nat).

Inductive directive : Type :=
| Lit (c : ascii)
| Conv (c : conversion).

Inductive printf_arg : Type :=
| ArgInt (z : Z)
| ArgLong (z : Z)
| ArgString (s : string)
| ArgDouble (d : double).

Definition precision_of (c : ascii) : option nat :=
  let n := nat_of_ascii c in
  if (48 <=? n)%nat && (n <=? 57)%nat then Some (n - 48)%nat else None.

(** The directives of a format string: [%d], [%ld], [%s], [%.Nf]; any other
    use of [%] has no defined output. *)
Fixpoint parse_format (format : string) : option (list directive) :=
  match format with
  | EmptyString => Some []
  | String "%" (String "d" rest) =>
      option_map (cons (Conv Conv_d)) (parse_format rest)
  | String "%" (String "l" (String "d" rest)) =>
      option_map (cons (Conv Conv_ld)) (parse_format rest)
  | String "%" (String "s" rest) =>
      option_map (cons (Conv Conv_s)) (parse_format rest)
  | String "%" (String "." (String p (String "f" rest))) =>
      match precision_of p with
      | Some n => option_map (cons (Conv (Conv_f n))) (parse_format rest)
      | None => None
      end
  | String "%" _ => None
  | String c rest => option_map (cons (Lit c)) (parse_format rest)
  end.

Definition render (c : conversion) (a : printf_arg) : option string :=
  match c, a with
  | Conv_d, ArgInt z => Some (decimal z)
  | Conv_ld, ArgLong z => Some (decimal (long_of_ulong z))
  | Conv_s, ArgString s => Some (cstr s)
  | Conv_f p, ArgDouble d => Some (format_f p d)
  | _, _ => None
  end.

Fixpoint format_directives (ds : list directive) (args : list printf_arg)
  : option string :=
  match ds with
  | [] => Some EmptyString
  | Lit c :: ds' => option_map (String c) (format_directives ds' args)
  | Conv c :: ds' =>
      match args with
      | a :: args' =>
          match render c a, format_directives ds' args' with
          | Some s, Some t => Some (s ++ t)%string
          | _, _ => None
          end
      | [] => None
      end
  end.

(** What [fprintf(fptr, format, args...)] appends to the file. *)
Definition fprintf (format : string) (args : list printf_arg) : option string :=
  match parse_format format with
  | Some ds => format_directives ds args
  | None => None
  end.

(** ** The CSV record (lines 194-219) *)

Definition line (s : string) : string := (s ++ String LF EmptyString)%string.

(** Lines 197-204. *)
Definition csv_header_format : string :=
  line ("steps,arrays,rows,cols,scaling,proc-rows,proc-cols,"
        ++ "slowdim,rank,alignment-increment,alignment-threshold,"
        ++ "layout,fill,mpi-io,wall [s],fsize [B],"
        ++ "write-phase-min [s],write-phase-max [s],"
        ++ "creat-min [s],creat-max [s],"
        ++ "write-min [s],write-max [s],"
        ++ "read-phase-min [s],read-phase-max [s],"
        ++ "read-min [s],read-max [s]")%string.

(** Lines 205-207. *)
Definition csv_row_format : string :=
  line ("%d,%d,%ld,%ld,%s,%d,%d,%s,%d,%ld,%ld,%s,%s,%s,"
        ++ "%.2f,%.0f,%.2f,%.2f,%.2f,%.2f,"
        ++ "%.2f,%.2f,%.2f,%.2f,%.2f,%.2f")%string.

(** Lines 208-218. *)
Definition csv_row_args (config : configuration) (wall_time : double)
  (fsize : Z) (st : statistics) : list printf_arg :=
  [ ArgInt (steps config); ArgInt (arrays config);
    ArgLong (rows config); ArgLong (cols config);
    ArgString (scaling config);
    ArgInt (proc_rows config); ArgInt (proc_cols config);
    ArgString (slowest_dimension config); ArgInt (rank config);
    ArgLong (alignment_increment config);
    ArgLong (alignment_threshold config);
    ArgString (layout config);
    ArgString (fill_values config); ArgString (mpi_io config);
    ArgDouble wall_time; ArgDouble (double_of_Z fsize);
    ArgDouble (min_write_phase st); ArgDouble (max_write_phase st);
    ArgDouble (min_create_time st); ArgDouble (max_create_time st);
    ArgDouble (min_write_time st); ArgDouble (max_write_time st);
    ArgDouble (min_read_phase st); ArgDouble (max_read_phase st);
    ArgDouble (min_read_time st); ArgDouble (max_read_time st) ].

(** The content of the CSV file after the two [fprintf] calls. *)
Definition csv_content (config : configuration) (wall_time : double)
  (fsize : Z) (st : statistics) : option string :=
  match fprintf csv_header_format [],
        fprintf csv_row_format (csv_row_args config wall_time fsize st) with
  | Some h, Some r => Some (h ++ r)%string
  | _, _ => None
  end.

(** Splitting at a separator. *)
Fixpoint split_on (sep : ascii) (s : string) : list string :=
  match s with
  | EmptyString => [EmptyString]
  | String c r =>
      if Ascii.eqb c sep then EmptyString :: split_on sep r
      else match split_on sep r with
           | h :: t => String c h :: t
           | [] => [String c EmptyString]
           end
  end.

Fixpoint free_of (sep : ascii) (s : string) : bool :=
  match s with
  | EmptyString => true
  | String c r => negb (Ascii.eqb c sep) && free_of sep r
  end.

(** A field that holds neither a comma nor a line feed. *)
Definition plain_field (s : string) : bool :=
  free_of "," s && free_of LF s.

(** The field names of the CSV header, as the program writes them. *)
Definition csv_field_names : list string :=
  [ "steps"; "arrays"; "rows"; "cols"; "scaling"; "proc-rows"; "proc-cols";
    "slowdim"; "rank"; "alignment-increment"; "alignment-threshold";
    "layout"; "fill"; "mpi-io"; "wall [s]"; "fsize [B]";
    "write-phase-min [s]"; "write-phase-max [s]";
    "creat-min [s]"; "creat-max [s]"; "write-min [s]"; "write-max [s]";
    "read-phase-min [s]"; "read-phase-max [s]"; "read-min [s]"; "read-max [s]" ].

(** The field names as the design document lists them. *)
Definition spec_field_names : list string :=
  [ "steps"; "arrays"; "rows"; "cols"; "scaling"; "proc-rows"; "proc-cols";
    "slowdim"; "rank"; "alignment-increment"; "alignment-threshold";
    "layout"; "fill"; "mpi-io"; "wall[s]"; "fsize[B]";
    "write-phase-min[s]"; "write-phase-max[s]";
    "creat-min[s]"; "creat-max[s]"; "write-min[s]"; "write-max[s]";
    "read-phase-min[s]"; "read-phase-max[s]"; "read-min[s]"; "read-max[s]" ].

(** The values of the data row, rendered, in the order of the arguments. *)
Definition csv_row_values (config : configuration) (wall_time : double)
  (fsize : Z) (st : statistics) : list string :=
  [ decimal (steps config); decimal (arrays config);
    decimal (long_of_ulong (rows config));
    decimal (long_of_ulong (cols config));
    cstr (scaling config);
    decimal (proc_rows config); decimal (proc_cols config);
    cstr (slowest_dimension config); decimal (rank config);
    decimal (long_of_ulong (alignment_increment config));
    decimal (long_of_ulong (alignment_threshold config));
    cstr (layout config); cstr (fill_values config); cstr (mpi_io config);
    format_f 2 wall_time; format_f 0 (double_of_Z fsize);
    format_f 2 (min_write_phase st); format_f 2 (max_write_phase st);
    format_f 2 (min_create_time st); format_f 2 (max_create_time st);
    format_f 2 (min_write_time st); format_f 2 (max_write_time st);
    format_f 2 (min_read_phase st); format_f 2 (max_read_phase st);
    format_f 2 (min_read_time st); format_f 2 (max_read_time st) ].

Definition csv_strings_plain (config : configuration) : bool :=
  plain_field (cstr (scaling config))
  && plain_field (cstr (slowest_dimension config))
  && plain_field (cstr (layout config))
  && plain_field (cstr (fill_values config))
  && plain_field (cstr (mpi_io config)).

Fixpoint join (sep : ascii) (l : list string) : string :=
  match l with
  | [] => EmptyString
  | [a] => a
  | a :: rest => (a ++ String sep (join sep rest))%string
  end.

Fixpoint remove_char (c : ascii) (s : string) : string :=
  match s with
  | EmptyString => EmptyString
  | String d r => if Ascii.eqb d c then remove_char c r
                  else String d (remove_char c r)
  end.

(** ** The program of one process: [main] (lines 29-225) *)

(** The calls a process makes, in the order it makes them.  Calls into the
    storage and coordination libraries appear as events; their failures are
    outside this model.  [EvDiagnostic check] is the diagnostic that the
    check named [check] prints for a configuration it refuses. *)
Inductive event : Type :=
| EvMPI_Init
| EvIniParse (ini : string)
| EvPrintf (text : string)
| EvSanityCheck
| EvValidate
| EvDiagnostic (check : string)
| EvMPI_Bcast
| EvH5Pcreate (cls : string)
| EvH5Pset_dxpl_mpio (mode : H5FD_mpio_xfer_t)
| EvH5Pset_fapl_mpio
| EvH5Pset_alignment (threshold increment : Z)
| EvH5get_libversion
| EvH5Pset_libver_bounds (low high : Z)
| EvPrintLibver (low high : Z)
| EvPrintConfig (config : configuration) (strong : bool)
| EvMPI_Barrier
| EvWriteTest (my_proc_row my_proc_col my_rows my_cols : Z)
| EvReadTest (my_proc_row my_proc_col my_rows my_cols : Z)
| EvH5Pclose
| EvFileSize (path : string)
| EvMPI_Reduce (op : MPI_Op) (sendbuf : double)
| EvPrintReport (st : statistics) (rt : rates)
| EvFwrite (path : string) (content : string)
| EvMPI_Finalize.

(** How a process ends: a return from [main], an abort (a failed assertion
    of line 233 or 281, or a check that refuses the configuration), or a trap
    (division by zero). *)
Inductive outcome : Type :=
| Returned (status : Z)
| Aborted (assertion : string)
| Trapped.

(** What a run is given from outside the program: the command line, the
    number of processes, what [ini_parse] leaves in [config] on rank 0 ([None]
    when it returns a negative value), the content of the automatic variable
    [config] before anything is stored in it, the version of the HDF5
    library, the times the processes measure (in rank order), and on rank 0
    the wall-clock time and the size of the file. *)
Record run_input : Type := mk_run_input {
  in_argv : list string;
  in_size : Z;
  in_parsed : option configuration;
  in_stack : configuration;
  in_libversion : libversion;
  in_timings : list timing;
  in_wall_time : double;
  in_fsize : Z
}.

(** A computation of one process: the events so far, and either the way the
    process stopped or a value. *)
Definition proc (A : Type) : Type := (list event * (outcome + A))%type.

Definition ret {A : Type} (a : A) : proc A := ([], inr a).

Definition bind {A B : Type} (m : proc A) (f : A -> proc B) : proc B :=
  match m with
  | (t, inl o) => (t, inl o)
  | (t, inr a) => let (t', r) := f a in (t ++ t', r)
  end.

Definition emit (e : event) : proc unit := ([e], inr tt).

Definition stop {A : Type} (o : outcome) : proc A := ([], inl o).

(** Modelled from the spec: what [sanity_check] and [validate], which are
    defined outside the sources, do with a configuration they refuse.  The
    design document has a configuration error reported and the run aborted
    before the broadcast: a diagnostic is printed and the process ends with a
    non-zero status.  The sources only show that the two calls come back when
    [main] goes on (lines 65-67). *)
Definition refuse {A : Type} (check : string) : proc A :=
  ([EvDiagnostic check], inl (Aborted check)).

(** Modelled from the spec: a check of the configuration that comes back
    when it accepts ([ok]) and refuses otherwise. *)
Definition checked (ok : bool) (check : string) : proc unit :=
  if ok then ret tt else refuse check.

Definition defined {A : Type} (o : option A) : proc A :=
  match o with
  | Some a => ret a
  | None => stop Trapped
  end.

Definition when (b : bool) (m : proc unit) : proc unit :=
  if b then m else ret tt.

Definition finish (m : proc Z) : list event * outcome :=
  match m with
  | (t, inl o) => (t, o)
  | (t, inr status) => (t, Returned status)
  end.

Declare Scope proc_scope.
Delimit Scope proc_scope with proc.
Notation "x <- m ;; k" := (bind m (fun x => k))
  (at level 61, m at next level, right associativity) : proc_scope.
Notation "m ;; k" := (bind m (fun _ => k))
  (at level 61, right associativity) : proc_scope.

Definition CONFIG_FILE : string := "hdf5_iotest.ini".

(** Line 31. *)
Definition ini_name (argv : list string) : string :=
  match argv with
  | _ :: a :: _ => a
  | _ => CONFIG_FILE
  end.

Definition timing_of_rank (inp : run_input) (mpi_rank : Z) : timing :=
  nth (Z.to_nat mpi_rank) (in_timings inp)
      (mk_timing 0 0 0 0 0)%float.

Section Main.

(** [sanity_check] and [validate] are defined outside the sources; they
    return when they accept the configuration, and [refuse] says what is
    taken to happen when they do not. *)
Variable sanity_check : configuration -> bool.
Variable validate : configuration -> Z -> bool.

(** Lines 57-67, on rank 0.  [checked] stands for the calls of lines 65-66
    to the two functions defined outside the sources. *)
Definition read_config (inp : run_input) : proc configuration :=
  (let ini := ini_name (in_argv inp) in
   emit (EvIniParse ini) ;;
   match in_parsed inp with
   | None =>
       emit (EvPrintf ("Can't load '" ++ ini ++ "'" ++ String LF EmptyString)) ;;
       stop (Returned 1)
   | Some config =>
       emit EvSanityCheck ;;
       checked (sanity_check config) "sanity_check" ;;
       emit EvValidate ;;
       checked (validate config (in_size inp)) "validate" ;;
       ret config
   end)%proc.

(** Lines 227-289. *)
Definition set_libver_bounds (v : libversion) (config : configuration)
  (mpi_rank : Z) : proc unit :=
  (emit EvH5get_libversion ;;
   match libver_bounds v config with
   | AssertionFailed expr => stop (Aborted expr)
   | Passed (low, high) =>
       emit (EvH5Pset_libver_bounds low high) ;;
       when (mpi_rank =? 0) (emit (EvPrintLibver low high))
   end)%proc.

(** Lines 144-163: the ten reductions, each sending the process's own time. *)
Definition reductions (t : timing) : proc unit :=
  (emit (EvMPI_Reduce MPI_MIN (write_phase t)) ;;
   emit (EvMPI_Reduce MPI_MAX (write_phase t)) ;;
   emit (EvMPI_Reduce MPI_MIN (create_time t)) ;;
   emit (EvMPI_Reduce MPI_MAX (create_time t)) ;;
   emit (EvMPI_Reduce MPI_MIN (write_time t)) ;;
   emit (EvMPI_Reduce MPI_MAX (write_time t)) ;;
   emit (EvMPI_Reduce MPI_MIN (read_phase t)) ;;
   emit (EvMPI_Reduce MPI_MAX (read_phase t)) ;;
   emit (EvMPI_Reduce MPI_MIN (read_time t)) ;;
   emit (EvMPI_Reduce MPI_MAX (read_time t)))%proc.

(** Lines 165-220, on rank 0. *)
Definition report (inp : run_input) (config : configuration)
  (my_rows my_cols : Z) : proc unit :=
  (let st := reduce_all (in_timings inp) in
   let rt := compute_rates (byte_count config my_rows my_cols) st in
   emit (EvPrintReport st rt) ;;
   content <- defined (csv_content config (in_wall_time inp) (in_fsize inp) st) ;;
   emit (EvFwrite (csv_file config) content))%proc.

(** [main] on the process of rank [mpi_rank]; [received] is what the
    broadcast leaves in [config] on a rank other than 0. *)
Definition main (inp : run_input) (mpi_rank : Z) (received : configuration)
  : list event * outcome :=
  finish
    (emit EvMPI_Init ;;
     own <- (if mpi_rank =? 0
             then (c <- read_config inp ;; ret (Some c))
             else ret None) ;;
     emit EvMPI_Bcast ;;
     let config := match own with Some c => c | None => received end in
     coord <- defined (grid_coordinate config mpi_rank) ;;
     extent <- defined (local_extent config) ;;
     emit (EvH5Pcreate "H5P_DATASET_XFER") ;;
     emit (EvH5Pset_dxpl_mpio (dxpl_mpio config)) ;;
     emit (EvH5Pcreate "H5P_FILE_ACCESS") ;;
     emit EvH5Pset_fapl_mpio ;;
     when (alignment_increment config >? 1)
          (emit (EvH5Pset_alignment (alignment_threshold config)
                                    (alignment_increment config))) ;;
     set_libver_bounds (in_libversion inp) config mpi_rank ;;
     when (mpi_rank =? 0)
          (emit (EvPrintConfig config (strong_scaling_flg config))) ;;
     emit EvMPI_Barrier ;;
     emit (EvWriteTest (fst coord) (snd coord) (fst extent) (snd extent)) ;;
     emit EvMPI_Barrier ;;
     emit (EvReadTest (fst coord) (snd coord) (fst extent) (snd extent)) ;;
     emit EvMPI_Barrier ;;
     emit EvH5Pclose ;;
     emit EvH5Pclose ;;
     when (mpi_rank =? 0) (emit (EvFileSize (hdf5_file config))) ;;
     reductions (timing_of_rank inp mpi_rank) ;;
     when (mpi_rank =? 0) (report inp config (fst extent) (snd extent)) ;;
     emit EvMPI_Finalize ;;
     ret 0)%proc.

(** The configuration rank 0 broadcasts, when it gets there. *)
Definition accepted (inp : run_input) : option configuration :=
  match in_parsed inp with
  | Some config =>
      if sanity_check config && validate config (in_size inp)
      then Some config else None
  | None => None
  end.

End Main.

(** The C string in [s] is one of [values]. *)
Definition one_of (s : string) (values : list string) : bool :=
  existsb (String.eqb (cstr s)) values.

(** The names of the version bounds, from the oldest to the newest. *)
Definition bound_names : list string :=
  ["earliest"; "v18"; "v110"; "v112"; "latest"].

Fixpoint index_of (s : string) (l : list string) : option nat :=
  match l with
  | [] => None
  | a :: r =>
      if String.eqb s a then Some 0%nat
      else option_map S (index_of s r)
  end.

(** Modelled from the spec: version bounds that make sense.  Both strings
    are among the five names of the design document, and the low bound does
    not name a newer version than the high bound. *)
Definition bounds_in_order (config : configuration) : bool :=
  match index_of (cstr (libver_bound_low config)) bound_names,
        index_of (cstr (libver_bound_high config)) bound_names with
  | Some low, Some high => (low <=? high)%nat
  | _, _ => false
  end.

(** Modelled from the spec: [sanity_check], which is defined outside the
    sources.  The design document names unrecognized scaling and layout
    strings as configuration errors and lists the admissible values of
    [scaling], [mpi_io], the two version bounds and the dataset rank.  It does
    not list the recognized layouts: they are the parameter [layouts]. *)
Definition spec_sanity_check_with (layouts : list string)
  (config : configuration) : bool :=
  one_of (scaling config) ["strong"; "weak"]
  && one_of (layout config) layouts
  && one_of (mpi_io config) ["collective"; "independent"]
  && bounds_in_order config
  && ((rank config =? 2) || (rank config =? 3)).

(** The layouts of the sample runs. *)
Definition sample_layouts : list string := ["contiguous"; "chunked"].

(** Modelled from the spec: [sanity_check] with the layouts of the sample
    runs. *)
Definition spec_sanity_check (config : configuration) : bool :=
  spec_sanity_check_with sample_layouts config.

(** Modelled from the spec: [validate], which is defined outside the
    sources.  The design document has the process grid validated against the
    process count: rows times columns equals the number of processes. *)
Definition spec_validate (config : configuration) (size : Z) : bool :=
  proc_rows config * proc_cols config =? size.



(** ** All processes together *)

(** A process: the events it has made and the ones it has yet to make. *)
Record process : Type := mk_process {
  done : list event;
  todo : list event
}.

Definition world : Type := list process.

Inductive label : Type :=
| Local (i : nat) (e : event)
| Barrier.

Definition is_barrier (e : event) : bool :=
  match e with
  | EvMPI_Barrier => true
  | _ => false
  end.

Definition is_bcast (e : event) : bool :=
  match e with
  | EvMPI_Bcast => true
  | _ => false
  end.

Definition at_barrier (p : process) : bool :=
  match todo p with
  | e :: _ => is_barrier e
  | [] => false
  end.

Definition pass (p : process) : process :=
  match todo p with
  | e :: rest => {| done := done p ++ [e]; todo := rest |}
  | [] => p
  end.

(** The root has made its broadcast call. *)
Definition bcast_posted (w : world) : bool :=
  match w with
  | root :: _ => existsb is_bcast (done root)
  | [] => false
  end.

Fixpoint replace_nth (i : nat) (p : process) (w : world) {struct w} : world :=
  match w, i with
  | [], _ => []
  | _ :: w', O => p :: w'
  | q :: w', S j => q :: replace_nth j p w'
  end.

(** Process [i] makes its next call on its own: any call but a barrier; the
    broadcast returns on a rank other than 0 only after the root has made
    its call. *)
Definition try_local (w : world) (i : nat) : option (label * world) :=
  match nth_error w i with
  | Some p =>
      match todo p with
      | e :: _ =>
          if is_barrier e then None
          else if is_bcast e && negb (Nat.eqb i 0) && negb (bcast_posted w)
          then None
          else Some (Local i e, replace_nth i (pass p) w)
      | [] => None
      end
  | None => None
  end.

(** Modelled from the spec: barrier() of the coordination layer blocks until
    every process has reached the same call; all leave it together. *)
Inductive step : world -> label -> world -> Prop :=
| step_local (w : world) (i : nat) (l : label) (w' : world) :
    try_local w i = Some (l, w') -> step w l w'
| step_barrier (w : world) :
    w <> [] -> forallb at_barrier w = true -> step w Barrier (map pass w).

Inductive execution : world -> list label -> world -> Prop :=
| exec_done (w : world) : execution w [] w
| exec_step (w w' w'' : world) (l : label) (tr : list label) :
    step w l w' -> execution w' tr w'' -> execution w (l :: tr) w''.

Fixpoint barriers (tr : list label) : nat :=
  match tr with
  | [] => 0
  | Barrier :: tr' => S (barriers tr')
  | Local _ _ :: tr' => barriers tr'
  end.

(** The phase a call belongs to: 0 up to the first barrier (start-up,
    configuration, broadcast, property lists), 1 the write test, 2 the read
    test, 3 what follows the third barrier (file size, reductions, report). *)
Definition phase_of (e : event) : nat :=
  match e with
  | EvWriteTest _ _ _ _ => 1
  | EvReadTest _ _ _ _ => 2
  | EvH5Pclose | EvFileSize _ | EvMPI_Reduce _ _ | EvPrintReport _ _
  | EvFwrite _ _ | EvMPI_Finalize => 3
  | _ => 0
  end.

(** A list of calls whose phases follow its barriers, starting in phase [k]. *)
Fixpoint well_phased (k : nat) (l : list event) : Prop :=
  match l with
  | [] => True
  | e :: r =>
      if is_barrier e then well_phased (S k) r
      else phase_of e = k /\ well_phased k r
  end.

(** A process that has made no call of a phase after [s] and has none of a
    phase before [s] left. *)
Definition in_phase (s : nat) (p : process) : Prop :=
  Forall (fun e => is_barrier e = true \/ phase_of e <= s)%nat (done p)
  /\ well_phased s (todo p).

Section World.

Variable sanity_check : configuration -> bool.
Variable validate : configuration -> Z -> bool.

(** What the broadcast delivers: the configuration of rank 0 when it was
    accepted; the buffer is never read otherwise. *)
Definition delivered (inp : run_input) : configuration :=
  match in_parsed inp with
  | Some config => config
  | None => in_stack inp
  end.

Definition init_process (inp : run_input) (i : nat) : process :=
  {| done := [];
     todo := fst (main sanity_check validate inp (Z.of_nat i) (delivered inp)) |}.

Definition init_world (inp : run_input) : world :=
  map (init_process inp) (seq 0 (Z.to_nat (in_size inp))).

End World.

(** A scheduler: the lowest rank that can move moves; when none can and all
    wait at a barrier, they pass it. *)
Fixpoint first_local (w : world) (ranks : list nat) : option (label * world) :=
  match ranks with
  | [] => None
  | i :: rest =>
      match try_local w i with
      | Some r => Some r
      | None => first_local w rest
      end
  end.

Definition sched_step (w : world) : option (label * world) :=
  match first_local w (seq 0 (List.length w)) with
  | Some r => Some r
  | None =>
      match w with
      | [] => None
      | _ :: _ => if forallb at_barrier w then Some (Barrier, map pass w)
                  else None
      end
  end.

Fixpoint run (fuel : nat) (w : world) : list label * world :=
  match fuel with
  | O => ([], w)
  | S fuel' =>
      match sched_step w with
      | Some (l, w') => let (tr, w'') := run fuel' w' in (l :: tr, w'')
      | None => ([], w)
      end
  end.

Definition finished (w : world) : bool :=
  forallb (fun p => match todo p with [] => true | _ => false end) w.

(** Two processes on a 1x2 grid. *)
Definition scenario_two : configuration := scenario "strong" 20 20 1 2.

Definition two_process_input (config : configuration) : run_input :=
  {| in_argv := ["hdf5_iotest"];
     in_size := 2;
     in_parsed := Some config;
     in_stack := scenario_A;
     in_libversion := hdf5_1_12;
     in_timings := firstn 2 sample_timings;
     in_wall_time := 12.5%float;
     in_fsize := 4096 |}.

Definition unreadable_input : run_input :=
  {| in_argv := ["hdf5_iotest"; "missing.ini"];
     in_size := 2;
     in_parsed := None;
     in_stack := scenario_A;
     in_libversion := hdf5_1_12;
     in_timings := firstn 2 sample_timings;
     in_wall_time := 12.5%float;
     in_fsize := 4096 |}.


(** A step that is neither a barrier nor a broadcast nor a call of a phase
    after the first barrier. *)
Definition before_bcast (l : label) : bool :=
  match l with
  | Local _ e => negb (is_bcast e) && Nat.eqb (phase_of e) 0
  | Barrier => false
  end.

(** The root has not made and will not make a broadcast call, and has no
    barrier ahead. *)
Definition root_silent (w : world) : Prop :=
  match w with
  | [] => True
  | root :: _ =>
      existsb is_bcast (done root ++ todo root) = false
      /\ existsb is_barrier (todo root) = false
  end.




(** The diagnostic of line 61. *)
Definition cannot_load (inp : run_input) : event :=
  EvPrintf ("Can't load '" ++ ini_name (in_argv inp) ++ "'"
            ++ String LF EmptyString).

(** The calls that mark the phases of a process. *)
Definition is_milestone (e : event) : bool :=
  match e with
  | EvMPI_Bcast | EvMPI_Barrier | EvWriteTest _ _ _ _ | EvReadTest _ _ _ _
  | EvFileSize _ | EvMPI_Finalize => true
  | _ => false
  end.

(** ** Further notions about the calls of a process *)

(** The calls only rank 0 makes: reading and checking the configuration,
    console output, the file-size query and the CSV file. *)
Definition root_only (e : event) : bool :=
  match e with
  | EvIniParse _ | EvSanityCheck | EvValidate | EvPrintf _ | EvPrintLibver _ _
  | EvPrintConfig _ _ | EvFileSize _ | EvPrintReport _ _ | EvFwrite _ _ => true
  | _ => false
  end.

(** The collective calls, which all processes of the communicator have to
    make in the same order. *)
Inductive collective : Type :=
| CInit
| CBcast
| CBarrier
| CReduce (op : MPI_Op)
| CFinalize.

Definition collective_of (e : event) : option collective :=
  match e with
  | EvMPI_Init => Some CInit
  | EvMPI_Bcast => Some CBcast
  | EvMPI_Barrier => Some CBarrier
  | EvMPI_Reduce op _ => Some (CReduce op)
  | EvMPI_Finalize => Some CFinalize
  | _ => None
  end.

Fixpoint collectives (l : list event) : list collective :=
  match l with
  | [] => []
  | e :: r =>
      match collective_of e with
      | Some c => c :: collectives r
      | None => collectives r
      end
  end.

Definition is_alignment (e : event) : bool :=
  match e with
  | EvH5Pset_alignment _ _ => true
  | _ => false
  end.

Definition is_finalize (e : event) : bool :=
  match e with
  | EvMPI_Finalize => true
  | _ => false
  end.

Definition hdf5_1_14 : libversion := mk_libversion 1 14 3.
Definition hdf5_1_8 : libversion := mk_libversion 1 8 22.

(** The number of occurrences of a character. *)
Fixpoint count_char (c : ascii) (s : string) : nat :=
  match s with
  | EmptyString => 0
  | String d r => (if Ascii.eqb d c then 1 else 0) + count_char c r
  end.

(** The commas in the five strings the data row prints with [%s]. *)
Definition commas_in_strings (config : configuration) : nat :=
  (count_char "," (cstr (scaling config))
   + count_char "," (cstr (slowest_dimension config))
   + count_char "," (cstr (layout config))
   + count_char "," (cstr (fill_values config))
   + count_char "," (cstr (mpi_io config)))%nat.

Definition scenario_comma : configuration :=
  {| steps := 1; arrays := 1; rows := 20; cols := 20; scaling := "weak";
     proc_rows := 1; proc_cols := 2; slowest_dimension := "step";
     rank := 2; alignment_increment := 1; alignment_threshold := 0;
     layout := "chunked,2"; fill_values := "true"; mpi_io := "independent";
     libver_bound_low := "earliest"; libver_bound_high := "latest";
     hdf5_file := "hdf5_iotest.h5"; csv_file := "hdf5_iotest.csv" |}.

(** ** Progress of a run *)

Fixpoint count_barriers (l : list event) : nat :=
  match l with
  | [] => 0
  | e :: r => (if is_barrier e then 1 else 0) + count_barriers r
  end.

(** The broadcast comes before the first barrier. *)
Fixpoint bcast_first (l : list event) : bool :=
  match l with
  | [] => false
  | e :: r =>
      if is_bcast e then true
      else if is_barrier e then false
      else bcast_first r
  end.

(** The calls the processes have yet to make. *)
Definition events_left (w : world) : nat :=
  list_sum (map (fun p => List.length (todo p)) w).

(** All the calls of a process, made and to be made. *)
Definition history (p : process) : list event := done p ++ todo p.

(** After [s] barriers every process has [3 - s] barriers ahead, and the
    root has made its broadcast call or has it ahead of its next barrier. *)
Definition live (s : nat) (w : world) : Prop :=
  Forall (fun p => (count_barriers (todo p) + s = 3)%nat) w
  /\ match w with
     | [] => True
     | root :: _ =>
         existsb is_bcast (done root) = true
         \/ bcast_first (todo root) = true
     end.

(** Every rank other than 0 has its broadcast call pending. *)
Definition peers_waiting (w : world) : Prop :=
  match w with
  | [] => True
  | _ :: peers =>
      Forall (fun p => existsb is_bcast (done p) = false
                       /\ existsb is_bcast (todo p) = true) peers
  end.

(** * Properties *)

(** ** [strncmp] *)

Module CStringFacts.

Lemma uchar_inj c1 c2 : uchar c1 - uchar c2 = 0 -> c1 = c2.
Proof.
  unfold uchar; intros H.
  assert (E : N_of_ascii c1 = N_of_ascii c2) by lia.
  rewrite <- (ascii_N_embedding c1), <- (ascii_N_embedding c2).
  now rewrite E.
Qed.

Lemma cstr_head_tail s :
  cstr s = if Ascii.eqb (head s) NUL then EmptyString
           else String (head s) (cstr (tail s)).
Proof. destruct s as [|c r]; reflexivity. Qed.

Lemma strncmp_zero_iff n : forall s1 s2,
  strncmp s1 s2 n = 0 <-> strn n (cstr s1) = strn n (cstr s2).
Proof.
  induction n as [|n IH]; intros s1 s2.
  - simpl; tauto.
  - cbn [strncmp]. rewrite (cstr_head_tail s1), (cstr_head_tail s2).
    destruct (Ascii.eqb_spec (head s1) (head s2)) as [E|NE].
    + rewrite <- E.
      destruct (Ascii.eqb_spec (head s1) NUL) as [Z0|NZ].
      * simpl; tauto.
      * cbn [strn]. rewrite IH. split.
        -- now intros ->.
        -- now intros [= ->].
    + split.
      * intros H. now apply uchar_inj in H.
      * intros H. exfalso.
        destruct (Ascii.eqb_spec (head s1) NUL) as [Z1|NZ1];
          destruct (Ascii.eqb_spec (head s2) NUL) as [Z2|NZ2];
          cbn [strn] in H; try discriminate; try congruence.
Qed.

Lemma cstr_NUL_free t : NUL_free t = true -> cstr t = t.
Proof.
  induction t as [|c r IH]; simpl; [reflexivity|].
  destruct (Ascii.eqb c NUL); simpl; [discriminate|].
  now intros H; rewrite IH.
Qed.

Lemma strn_short n : forall u t,
  (String.length t < n)%nat -> strn n u = t -> u = t.
Proof.
  induction n as [|n IH]; intros u t L E; [inversion L|].
  destruct u as [|c r]; simpl in E; [assumption|].
  destruct t as [|d t']; [discriminate|].
  injection E as -> E. f_equal. apply (IH r t'); [simpl in L; lia|assumption].
Qed.

Lemma strn_all n : forall t, (String.length t <= n)%nat -> strn n t = t.
Proof.
  induction n as [|n IH]; intros [|c r] L; simpl in *;
    try reflexivity; try lia.
  f_equal; apply IH; lia.
Qed.

(** Against a literal that is shorter than the bound, [strncmp] decides
    equality of C strings. *)
Lemma strncmp_literal s t n :
  NUL_free t = true -> (String.length t < n)%nat ->
  strncmp s t n = 0 <-> cstr s = t.
Proof.
  intros F L. rewrite strncmp_zero_iff, (cstr_NUL_free t F).
  rewrite (strn_all n t) by lia. split.
  - now apply strn_short.
  - intros ->. apply strn_all; lia.
Qed.

Lemma head_strn n s : head (strn (S n) s) = head s.
Proof. now destruct s. Qed.

Lemma tail_strn n s : tail (strn (S n) s) = strn n (tail s).
Proof. destruct s; [now destruct n|reflexivity]. Qed.

(** Only the first [n] characters of the arrays are read. *)
Lemma strncmp_prefix n : forall s1 s2,
  strncmp s1 s2 n = strncmp (strn n s1) (strn n s2) n.
Proof.
  induction n as [|n IH]; intros s1 s2; [reflexivity|].
  cbn [strncmp]. rewrite !head_strn, !tail_strn.
  now rewrite (IH (tail s1) (tail s2)).
Qed.

End CStringFacts.
Import CStringFacts.

(** ** Process grid (lines 72-73) *)

Lemma strong_scaling_flg_iff (config : configuration) :
  strong_scaling_flg config = true <-> cstr (scaling config) = "strong".
Proof.
  unfold strong_scaling_flg. rewrite Z.eqb_eq.
  apply strncmp_literal; [reflexivity | simpl; lia].
Qed.

Lemma coll_mpi_io_flg_iff (config : configuration) :
  coll_mpi_io_flg config = true <-> cstr (mpi_io config) = "collective".
Proof.
  unfold coll_mpi_io_flg. rewrite Z.eqb_eq.
  apply strncmp_literal; [reflexivity | simpl; lia].
Qed.

Lemma grid_coordinate_nonneg (config : configuration) (mpi_rank : Z) :
  0 < proc_cols config -> 0 <= mpi_rank ->
  grid_coordinate config mpi_rank =
    Some (mpi_rank / proc_cols config, mpi_rank mod proc_cols config).
Proof.
  intros Hc Hr. unfold grid_coordinate, my_proc_row, my_proc_col, int_div, int_mod.
  destruct (Z.eqb_spec (proc_cols config) 0) as [E|_]; [lia|].
  rewrite Z.quot_div_nonneg, Z.rem_mod_nonneg by lia. reflexivity.
Qed.

(** C4: with a positive column count and [proc_rows * proc_cols] equal to the
    number of processes, rank |-> (rank / proc_cols, rank % proc_cols) maps
    the ranks 0..size-1 into the grid, is injective on them, and reaches
    every cell of the grid. *)
Theorem grid_coordinate_bijective (config : configuration) (size : Z) :
  0 < proc_cols config ->
  proc_rows config * proc_cols config = size ->
  (forall k, 0 <= k < size ->
     exists r c, grid_coordinate config k = Some (r, c)
                 /\ r = k / proc_cols config /\ c = k mod proc_cols config
                 /\ 0 <= r < proc_rows config /\ 0 <= c < proc_cols config)
  /\ (forall k1 k2, 0 <= k1 < size -> 0 <= k2 < size ->
        grid_coordinate config k1 = grid_coordinate config k2 -> k1 = k2)
  /\ (forall r c, 0 <= r < proc_rows config -> 0 <= c < proc_cols config ->
        exists k, 0 <= k < size /\ grid_coordinate config k = Some (r, c)).
Proof.
  intros Hc Hsz. set (pc := proc_cols config) in *.
  set (pr := proc_rows config) in *. repeat split.
  - intros k Hk. exists (k / pc), (k mod pc).
    rewrite grid_coordinate_nonneg by (fold pc; lia). fold pc.
    repeat split; try reflexivity.
    + apply Z.div_pos; lia.
    + apply Z.div_lt_upper_bound; lia.
    + apply Z.mod_pos_bound; lia.
    + apply Z.mod_pos_bound; lia.
  - intros k1 k2 H1 H2.
    rewrite !grid_coordinate_nonneg by (fold pc; lia). fold pc.
    intros [= Hq Hm].
    rewrite (Z.div_mod k1 pc), (Z.div_mod k2 pc) by lia. now rewrite Hq, Hm.
  - intros r c Hr Hcc. exists (r * pc + c). split; [nia|].
    rewrite grid_coordinate_nonneg by (fold pc; nia). fold pc. f_equal. f_equal.
    + rewrite Z.div_add_l by lia. rewrite Z.div_small by lia. lia.
    + rewrite Z.add_comm, Z.mod_add by lia. apply Z.mod_small; lia.
Qed.

(** Scenario B, four ranks on the 2x2 grid. *)
Lemma grid_coordinate_bijective_2x2 :
  0 < proc_cols scenario_B
  /\ proc_rows scenario_B * proc_cols scenario_B = 4
  /\ (forall k, 0 <= k < 4 ->
       exists r c, grid_coordinate scenario_B k = Some (r, c)
                   /\ r = k / proc_cols scenario_B
                   /\ c = k mod proc_cols scenario_B
                   /\ 0 <= r < proc_rows scenario_B
                   /\ 0 <= c < proc_cols scenario_B)
  /\ (forall k1 k2, 0 <= k1 < 4 -> 0 <= k2 < 4 ->
        grid_coordinate scenario_B k1 = grid_coordinate scenario_B k2 ->
        k1 = k2)
  /\ (forall r c, 0 <= r < proc_rows scenario_B ->
        0 <= c < proc_cols scenario_B ->
        exists k, 0 <= k < 4 /\ grid_coordinate scenario_B k = Some (r, c)).
Proof.
  split; [simpl; lia|]. split; [reflexivity|].
  apply (grid_coordinate_bijective scenario_B 4); [simpl; lia | reflexivity].
Defined.

Example grid_coordinates_scenario_B :
  map (grid_coordinate scenario_B) [0; 1; 2; 3]
  = [Some (0, 0); Some (0, 1); Some (1, 0); Some (1, 1)].
Proof. reflexivity. Qed.

(** ** Local extent (lines 75-77) *)

Lemma ulong_of_int_pos z : 0 < z -> ulong_of_int z = z.
Proof. unfold ulong_of_int. destruct (Z.ltb_spec z 0); lia. Qed.

Lemma local_extent_weak (config : configuration) :
  strong_scaling_flg config = false ->
  local_extent config = Some (rows config, cols config).
Proof. unfold local_extent, my_rows, my_cols. now intros ->. Qed.

Lemma local_extent_strong (config : configuration) :
  strong_scaling_flg config = true ->
  0 < proc_rows config -> 0 < proc_cols config ->
  local_extent config =
    Some (rows config / proc_rows config, cols config / proc_cols config).
Proof.
  unfold local_extent, my_rows, my_cols, ulong_div. intros -> Hr Hc.
  rewrite !ulong_of_int_pos by assumption.
  destruct (Z.eqb_spec (proc_rows config) 0); [lia|].
  destruct (Z.eqb_spec (proc_cols config) 0); [lia|]. reflexivity.
Qed.

(** C3: on a grid with positive dimensions, the local extent is
    (rows / proc_rows, cols / proc_cols) when the scaling string is "strong",
    and the global (rows, cols) otherwise. *)
Theorem local_extent_by_scaling (config : configuration) :
  0 < proc_rows config -> 0 < proc_cols config ->
  local_extent config =
    Some (if String.eqb (cstr (scaling config)) "strong"
          then (rows config / proc_rows config, cols config / proc_cols config)
          else (rows config, cols config)).
Proof.
  intros Hr Hc.
  destruct (String.eqb_spec (cstr (scaling config)) "strong") as [E|NE].
  - apply local_extent_strong; try assumption.
    now apply strong_scaling_flg_iff.
  - apply local_extent_weak.
    destruct (strong_scaling_flg config) eqn:F; [|reflexivity].
    now apply strong_scaling_flg_iff in F.
Qed.

(** Scenario B: 2x2 grid, global 20x20, strong scaling: local extent (10,10). *)
Lemma local_extent_scenario_B :
  0 < proc_rows scenario_B /\ 0 < proc_cols scenario_B
  /\ local_extent scenario_B = Some (10, 10).
Proof.
  split; [simpl; lia|]. split; [simpl; lia|].
  apply (local_extent_by_scaling scenario_B); simpl; lia.
Defined.

Example local_extent_scenario_C : local_extent scenario_C = Some (10, 10).
Proof. reflexivity. Qed.

(** ** The order on doubles *)

Module DoubleOrder.

Ltac cmp_cases :=
  repeat match goal with
    | |- context [Z.compare ?a ?b] => destruct (Z.compare_spec a b)
    | |- context [Pos.compare_cont Eq ?a ?b] =>
        change (Pos.compare_cont Eq a b) with (Pos.compare a b);
        destruct (Pos.compare_spec a b)
    end.

Lemma SFcompare_key x y :
  match sf_key x, sf_key y with
  | Some a, Some b =>
      exists c, SFcompare x y = Some c
                /\ (c = Lt <-> key_lt a b) /\ (c <> Gt <-> key_le a b)
  | _, _ => SFcompare x y = None
  end.
Proof.
  destruct x as [sx|sx| |sx mx ex], y as [sy|sy| |sy my ey];
    try destruct sx; try destruct sy; cbn [sf_key SFcompare];
    try reflexivity; cmp_cases; eexists; (split; [reflexivity|]);
    unfold key_lt, key_le; cbn [CompOpp];
    (split; split; intros; try discriminate; try congruence; try lia).
Qed.

Lemma is_number_key x :
  is_number x = true <-> exists a, sf_key (Prim2SF x) = Some a.
Proof.
  unfold is_number. rewrite eqb_spec. unfold SFeqb.
  pose proof (SFcompare_key (Prim2SF x) (Prim2SF x)) as H.
  destruct (sf_key (Prim2SF x)) as [[[a1 a2] a3]|].
  - destruct H as (c & -> & HL & HG). split; [eauto|intros _].
    destruct c; [reflexivity| |].
    + exfalso. pose proof (proj1 HL eq_refl) as K. unfold key_lt in K. lia.
    + exfalso. assert (K : key_le (a1, a2, a3) (a1, a2, a3))
        by (unfold key_le; lia). apply HG in K. congruence.
  - rewrite H. split; [discriminate|]. intros [a E]; discriminate.
Qed.

Lemma ltb_key x y a b :
  sf_key (Prim2SF x) = Some a -> sf_key (Prim2SF y) = Some b ->
  (x <? y)%float = true <-> key_lt a b.
Proof.
  intros Ha Hb. rewrite ltb_spec. unfold SFltb.
  pose proof (SFcompare_key (Prim2SF x) (Prim2SF y)) as H.
  rewrite Ha, Hb in H. destruct H as (c & -> & HL & _).
  rewrite <- HL. destruct c; split; congruence.
Qed.

Lemma leb_key x y a b :
  sf_key (Prim2SF x) = Some a -> sf_key (Prim2SF y) = Some b ->
  (x <=? y)%float = true <-> key_le a b.
Proof.
  intros Ha Hb. rewrite leb_spec. unfold SFleb.
  pose proof (SFcompare_key (Prim2SF x) (Prim2SF y)) as H.
  rewrite Ha, Hb in H. destruct H as (c & -> & _ & HG).
  rewrite <- HG. destruct c; split; congruence.
Qed.

Lemma leb_refl x : is_number x = true -> (x <=? x)%float = true.
Proof.
  intros H. apply is_number_key in H as [[[a1 a2] a3] E].
  rewrite (leb_key x x _ _ E E). unfold key_le. lia.
Qed.

Lemma leb_total x y :
  is_number x = true -> is_number y = true ->
  (x <? y)%float = false -> (y <=? x)%float = true.
Proof.
  intros Hx Hy. apply is_number_key in Hx as [[[a1 a2] a3] Ea].
  apply is_number_key in Hy as [[[b1 b2] b3] Eb].
  rewrite (leb_key y x _ _ Eb Ea). intros F.
  assert (N : ~ key_lt (a1, a2, a3) (b1, b2, b3)).
  { intros K. apply (ltb_key x y _ _ Ea Eb) in K. congruence. }
  unfold key_lt in N. unfold key_le. lia.
Qed.

Lemma ltb_leb x y :
  is_number x = true -> is_number y = true ->
  (x <? y)%float = true -> (x <=? y)%float = true.
Proof.
  intros Hx Hy. apply is_number_key in Hx as [[[a1 a2] a3] Ea].
  apply is_number_key in Hy as [[[b1 b2] b3] Eb].
  rewrite (leb_key x y _ _ Ea Eb), (ltb_key x y _ _ Ea Eb).
  unfold key_lt, key_le. lia.
Qed.

Lemma leb_trans x y z :
  is_number x = true -> is_number y = true -> is_number z = true ->
  (x <=? y)%float = true -> (y <=? z)%float = true ->
  (x <=? z)%float = true.
Proof.
  intros Hx Hy Hz. apply is_number_key in Hx as [[[a1 a2] a3] Ea].
  apply is_number_key in Hy as [[[b1 b2] b3] Eb].
  apply is_number_key in Hz as [[[c1 c2] c3] Ec].
  rewrite (leb_key x y _ _ Ea Eb), (leb_key y z _ _ Eb Ec),
          (leb_key x z _ _ Ea Ec).
  unfold key_le. lia.
Qed.

End DoubleOrder.

(** ** Reductions (lines 144-163) *)

Import DoubleOrder.

Lemma fold_max_spec (vs : list double) : forall acc,
  is_number acc = true -> numbers vs ->
  let m := fold_left (mpi_combine MPI_MAX) vs acc in
  is_number m = true /\ (m = acc \/ In m vs)
  /\ (acc <=? m)%float = true
  /\ Forall (fun t => (t <=? m)%float = true) vs.
Proof.
  induction vs as [|x vs IH]; intros acc Ha Hv; cbn [fold_left].
  - repeat split; auto using leb_refl.
  - inversion Hv as [|? ? Hx Hvs]; subst.
    set (acc' := mpi_combine MPI_MAX acc x).
    assert (Hstep : is_number acc' = true /\ (acc' = acc \/ acc' = x)
                    /\ (acc <=? acc')%float = true
                    /\ (x <=? acc')%float = true).
    { unfold acc', mpi_combine. destruct (acc <? x)%float eqn:L.
      - repeat split; auto using leb_refl, ltb_leb.
      - repeat split; auto using leb_refl, leb_total. }
    destruct Hstep as (Hn & Hor & Hle1 & Hle2).
    destruct (IH acc' Hn Hvs) as (Hm & Hin & Hacc & Hall).
    repeat split.
    + exact Hm.
    + destruct Hin as [->|Hin]; [|right; now right].
      destruct Hor as [->| ->]; [now left | right; now left].
    + exact (leb_trans acc acc' _ Ha Hn Hm Hle1 Hacc).
    + constructor; [exact (leb_trans x acc' _ Hx Hn Hm Hle2 Hacc) | exact Hall].
Qed.

Lemma fold_min_spec (vs : list double) : forall acc,
  is_number acc = true -> numbers vs ->
  let m := fold_left (mpi_combine MPI_MIN) vs acc in
  is_number m = true /\ (m = acc \/ In m vs)
  /\ (m <=? acc)%float = true
  /\ Forall (fun t => (m <=? t)%float = true) vs.
Proof.
  induction vs as [|x vs IH]; intros acc Ha Hv; cbn [fold_left].
  - repeat split; auto using leb_refl.
  - inversion Hv as [|? ? Hx Hvs]; subst.
    set (acc' := mpi_combine MPI_MIN acc x).
    assert (Hstep : is_number acc' = true /\ (acc' = acc \/ acc' = x)
                    /\ (acc' <=? acc)%float = true
                    /\ (acc' <=? x)%float = true).
    { unfold acc', mpi_combine. destruct (x <? acc)%float eqn:L.
      - repeat split; auto using leb_refl, ltb_leb.
      - repeat split; auto using leb_refl, leb_total. }
    destruct Hstep as (Hn & Hor & Hle1 & Hle2).
    destruct (IH acc' Hn Hvs) as (Hm & Hin & Hacc & Hall).
    repeat split.
    + exact Hm.
    + destruct Hin as [->|Hin]; [|right; now right].
      destruct Hor as [->| ->]; [now left | right; now left].
    + exact (leb_trans _ acc' acc Hm Hn Ha Hacc Hle1).
    + constructor; [exact (leb_trans _ acc' x Hm Hn Hx Hacc Hle2) | exact Hall].
Qed.

Lemma MPI_Reduce_max (l : list double) (recvbuf : double) :
  l <> [] -> numbers l -> is_maximum l (MPI_Reduce MPI_MAX l recvbuf).
Proof.
  destruct l as [|v vs]; [congruence|]. intros _ H.
  inversion H as [|? ? Hv Hvs]; subst. cbn [MPI_Reduce].
  destruct (fold_max_spec vs v Hv Hvs) as (_ & Hin & Hle & Hall).
  split; [destruct Hin as [->|Hin]; [now left | now right]|].
  constructor; assumption.
Qed.

Lemma MPI_Reduce_min (l : list double) (recvbuf : double) :
  l <> [] -> numbers l -> is_minimum l (MPI_Reduce MPI_MIN l recvbuf).
Proof.
  destruct l as [|v vs]; [congruence|]. intros _ H.
  inversion H as [|? ? Hv Hvs]; subst. cbn [MPI_Reduce].
  destruct (fold_min_spec vs v Hv Hvs) as (_ & Hin & Hle & Hall).
  split; [destruct Hin as [->|Hin]; [now left | now right]|].
  constructor; assumption.
Qed.

Lemma minimum_le_maximum (l : list double) (lo hi : double) :
  is_minimum l lo -> is_maximum l hi -> (lo <=? hi)%float = true.
Proof.
  intros [_ Hlo] [Hin _]. rewrite Forall_forall in Hlo. now apply Hlo.
Qed.

Lemma numbers_field (f : timing -> double) (procs : list timing) :
  (forall t, timing_numbers t = true -> is_number (f t) = true) ->
  Forall (fun t => timing_numbers t = true) procs ->
  numbers (map f procs).
Proof.
  intros Hf H. unfold numbers. rewrite Forall_map.
  eapply Forall_impl; [|exact H]. exact Hf.
Qed.

Ltac timing_field :=
  let t := fresh "t" in
  let H := fresh "H" in
  intros t H; unfold timing_numbers in H;
  repeat (apply andb_prop in H; destruct H as [H ?]); assumption.

Lemma map_nonempty {A B} (f : A -> B) (l : list A) : l <> [] -> map f l <> [].
Proof. destruct l; [congruence | discriminate]. Qed.

Ltac reduce_field NE H :=
  first [apply MPI_Reduce_max | apply MPI_Reduce_min];
  [ apply map_nonempty; exact NE
  | apply numbers_field; [timing_field | exact H] ].

(** C6: with at least one process and times that are numbers, each of the
    five MIN results on rank 0 is at most the MAX result of the same field. *)
Theorem reduced_min_le_max (procs : list timing) :
  procs <> [] ->
  Forall (fun t => timing_numbers t = true) procs ->
  let st := reduce_all procs in
  (min_write_phase st <=? max_write_phase st)%float = true
  /\ (min_create_time st <=? max_create_time st)%float = true
  /\ (min_write_time st <=? max_write_time st)%float = true
  /\ (min_read_phase st <=? max_read_phase st)%float = true
  /\ (min_read_time st <=? max_read_time st)%float = true.
Proof.
  intros NE H. cbn [reduce_all min_write_phase max_write_phase min_create_time
    max_create_time min_write_time max_write_time min_read_phase
    max_read_phase min_read_time max_read_time].
  repeat apply conj;
    (eapply minimum_le_maximum; reduce_field NE H).
Qed.

Lemma reduced_min_le_max_sample :
  sample_timings <> []
  /\ Forall (fun t => timing_numbers t = true) sample_timings
  /\ (let st := reduce_all sample_timings in
      (min_write_phase st <=? max_write_phase st)%float = true
      /\ (min_create_time st <=? max_create_time st)%float = true
      /\ (min_write_time st <=? max_write_time st)%float = true
      /\ (min_read_phase st <=? max_read_phase st)%float = true
      /\ (min_read_time st <=? max_read_time st)%float = true).
Proof.
  assert (NE : sample_timings <> []) by discriminate.
  assert (N : Forall (fun t => timing_numbers t = true) sample_timings)
    by (repeat constructor).
  split; [exact NE|]. split; [exact N|].
  exact (reduced_min_le_max sample_timings NE N).
Defined.

(** ** Rates (lines 165-172) *)

Lemma rank0_summary_eq (config : configuration) (procs : list timing) (r c : Z) :
  local_extent config = Some (r, c) ->
  rank0_summary config procs =
    Some (reduce_all procs,
          compute_rates (byte_count config r c) (reduce_all procs)).
Proof. unfold rank0_summary. now intros ->. Qed.

(** C1: on rank 0, with at least one process and times that are numbers, the
    minimum write rate is the byte count divided by 1024*1024 times the
    greatest write time of all processes, the maximum write rate divides by
    the least write time, and the read rates pair the same way with the read
    times. *)
Theorem rates_pair_with_opposite_times
  (config : configuration) (procs : list timing) (r c : Z) :
  local_extent config = Some (r, c) ->
  procs <> [] ->
  Forall (fun t => timing_numbers t = true) procs ->
  exists st rt,
    rank0_summary config procs = Some (st, rt)
    /\ is_maximum (map write_time procs) (max_write_time st)
    /\ is_minimum (map write_time procs) (min_write_time st)
    /\ is_maximum (map read_time procs) (max_read_time st)
    /\ is_minimum (map read_time procs) (min_read_time st)
    /\ min_write_rate rt
       = (byte_count config r c / (1048576 * max_write_time st))%float
    /\ max_write_rate rt
       = (byte_count config r c / (1048576 * min_write_time st))%float
    /\ min_read_rate rt
       = (byte_count config r c / (1048576 * max_read_time st))%float
    /\ max_read_rate rt
       = (byte_count config r c / (1048576 * min_read_time st))%float.
Proof.
  intros E NE H. eexists _, _.
  split; [exact (rank0_summary_eq config procs r c E)|].
  cbn [reduce_all max_write_time min_write_time max_read_time min_read_time].
  repeat (split; [reduce_field NE H|]). repeat split.
Qed.

Lemma rates_pair_with_opposite_times_sample :
  local_extent scenario_C = Some (10, 10)
  /\ sample_timings <> []
  /\ Forall (fun t => timing_numbers t = true) sample_timings
  /\ exists st rt,
    rank0_summary scenario_C sample_timings = Some (st, rt)
    /\ is_maximum (map write_time sample_timings) (max_write_time st)
    /\ is_minimum (map write_time sample_timings) (min_write_time st)
    /\ is_maximum (map read_time sample_timings) (max_read_time st)
    /\ is_minimum (map read_time sample_timings) (min_read_time st)
    /\ min_write_rate rt
       = (byte_count scenario_C 10 10 / (1048576 * max_write_time st))%float
    /\ max_write_rate rt
       = (byte_count scenario_C 10 10 / (1048576 * min_write_time st))%float
    /\ min_read_rate rt
       = (byte_count scenario_C 10 10 / (1048576 * max_read_time st))%float
    /\ max_read_rate rt
       = (byte_count scenario_C 10 10 / (1048576 * min_read_time st))%float.
Proof.
  assert (E : local_extent scenario_C = Some (10, 10)) by reflexivity.
  assert (NE : sample_timings <> []) by discriminate.
  assert (N : Forall (fun t => timing_numbers t = true) sample_timings)
    by (repeat constructor).
  split; [exact E|]. split; [exact NE|]. split; [exact N|].
  exact (rates_pair_with_opposite_times scenario_C sample_timings 10 10 E NE N).
Defined.

(** On the sample run the slowest writer took 2 s and the fastest 1 s: the
    minimum rate is 800 B over 2 s, and differs from 800 B over 1 s. *)
Example rates_sample_values :
  match rank0_summary scenario_C sample_timings with
  | Some (st, rt) =>
      max_write_time st = 2%float /\ min_write_time st = 1%float
      /\ min_write_rate rt = (800 / (1048576 * 2))%float
      /\ max_write_rate rt = (800 / (1048576 * 1))%float
      /\ (min_write_rate rt =? 800 / (1048576 * 1))%float = false
  | None => False
  end.
Proof. vm_compute. repeat split. Qed.

(** C2: on a grid with positive dimensions, in both scaling modes, the four
    rates of rank 0 divide one byte count, the product in double arithmetic of
    steps, arrays, the local rows, the local columns and 8, where the local
    extent is (rows / proc_rows, cols / proc_cols) under strong scaling and
    (rows, cols) otherwise. *)
Theorem byte_count_of_local_extent
  (config : configuration) (procs : list timing) :
  0 < proc_rows config -> 0 < proc_cols config ->
  let ext :=
    if String.eqb (cstr (scaling config)) "strong"
    then (rows config / proc_rows config, cols config / proc_cols config)
    else (rows config, cols config) in
  let bytes :=
    (double_of_Z (steps config) * double_of_Z (arrays config)
     * double_of_Z (fst ext) * double_of_Z (snd ext) * 8)%float in
  exists st,
    rank0_summary config procs =
      Some (st,
            {| min_write_rate := (bytes / (1048576 * max_write_time st))%float;
               max_write_rate := (bytes / (1048576 * min_write_time st))%float;
               min_read_rate := (bytes / (1048576 * max_read_time st))%float;
               max_read_rate := (bytes / (1048576 * min_read_time st))%float |}).
Proof.
  intros Hr Hc ext bytes. exists (reduce_all procs).
  assert (E : local_extent config = Some (fst ext, snd ext)).
  { rewrite <- surjective_pairing. unfold ext.
    destruct (String.eqb_spec (cstr (scaling config)) "strong") as [S|W].
    - apply local_extent_strong; try assumption.
      now apply strong_scaling_flg_iff.
    - apply local_extent_weak.
      destruct (strong_scaling_flg config) eqn:F; [|reflexivity].
      now apply strong_scaling_flg_iff in F. }
  rewrite (rank0_summary_eq config procs _ _ E). reflexivity.
Qed.

(** Scenario C: weak scaling on the 2x2 grid with 10x10 per process; the
    on-disk extent is 20x20, the byte count is 1*1*10*10*8. *)
Lemma byte_count_scenario_C :
  0 < proc_rows scenario_C /\ 0 < proc_cols scenario_C
  /\ exists st,
    rank0_summary scenario_C sample_timings =
      Some (st,
            {| min_write_rate := (800 / (1048576 * max_write_time st))%float;
               max_write_rate := (800 / (1048576 * min_write_time st))%float;
               min_read_rate := (800 / (1048576 * max_read_time st))%float;
               max_read_rate := (800 / (1048576 * min_read_time st))%float |}).
Proof.
  split; [simpl; lia|]. split; [simpl; lia|].
  apply (byte_count_of_local_extent scenario_C sample_timings); simpl; lia.
Defined.

Example byte_count_scenario_B_C :
  byte_count scenario_C 10 10 = 800%float
  /\ (byte_count scenario_C 10 10 =? byte_count scenario_C 20 20)%float = false
  /\ option_map (fun e => byte_count scenario_B (fst e) (snd e))
       (local_extent scenario_B) = Some 800%float.
Proof. vm_compute. repeat split. Qed.

(** ** Version bounds (lines 227-289) *)

Lemma streq16_eqb (s literal : string) :
  NUL_free literal = true -> (String.length literal < 16)%nat ->
  streq16 s literal = String.eqb (cstr s) literal.
Proof.
  intros F L. unfold streq16.
  pose proof (strncmp_literal s literal 16 F L) as H.
  destruct (String.eqb_spec (cstr s) literal) as [E|NE].
  - apply Z.eqb_eq. now apply H.
  - apply Z.eqb_neq. intros K. now apply H in K.
Qed.

Ltac literal_eqb :=
  rewrite ?(streq16_eqb _ "earliest"), ?(streq16_eqb _ "latest"),
          ?(streq16_eqb _ "v18"), ?(streq16_eqb _ "v110"),
          ?(streq16_eqb _ "v112") by (reflexivity || (simpl; lia)).

Lemma H5_VERSION_GE_minor (v : libversion) (m : N) :
  libversion_asserted v = true ->
  H5_VERSION_GE v 1 m 0 = (m <=? minnum v)%N.
Proof.
  unfold libversion_asserted, H5_VERSION_GE. intros H.
  apply andb_prop in H as [H _]. apply andb_prop in H as [H _].
  rewrite H. cbn [andb]. apply N.eqb_eq in H. rewrite H.
  change (1 <? 1)%N with false. rewrite orb_false_r.
  replace (0 <=? relnum v)%N with true by (symmetry; apply N.leb_le; lia).
  rewrite andb_true_r.
  destruct (N.eqb_spec (minnum v) m), (N.ltb_spec m (minnum v)),
    (N.leb_spec m (minnum v)); try reflexivity; lia.
Qed.

Lemma libver_low_cases (v : libversion) (s : string) :
  libver_low v s =
    if String.eqb (cstr s) "earliest" then H5F_LIBVER_EARLIEST
    else match pinned_version v (cstr s) with
         | Some a => a
         | None => H5F_LIBVER_LATEST v
         end.
Proof.
  unfold libver_low, pinned_version. literal_eqb.
  destruct (String.eqb (cstr s) "earliest"); [reflexivity|]. cbn [negb].
  destruct (String.eqb (cstr s) "v18");
    [now destruct (H5_VERSION_GE v 1 10 0)|].
  destruct (String.eqb (cstr s) "v110");
    [now destruct (H5_VERSION_GE v 1 12 0)|].
  destruct (String.eqb (cstr s) "v112");
    [now destruct (H5_VERSION_GE v 1 13 0)|]. reflexivity.
Qed.

Lemma libver_high_cases (v : libversion) (s : string) :
  libver_high v s =
    match pinned_version v (cstr s) with
    | Some b => b
    | None => H5F_LIBVER_LATEST v
    end.
Proof.
  unfold libver_high, pinned_version. literal_eqb.
  destruct (String.eqb_spec (cstr s) "latest") as [->|_]; [reflexivity|].
  cbn [negb].
  destruct (String.eqb (cstr s) "v18");
    [now destruct (H5_VERSION_GE v 1 10 0)|].
  destruct (String.eqb (cstr s) "v110");
    [now destruct (H5_VERSION_GE v 1 12 0)|].
  destruct (String.eqb (cstr s) "v112");
    [now destruct (H5_VERSION_GE v 1 13 0)|]. reflexivity.
Qed.

Lemma pinned_version_below_latest (v : libversion) (s : string) (a : Z) :
  libversion_asserted v = true ->
  pinned_version v s = Some a -> 1 <= a < H5F_LIBVER_LATEST v.
Proof.
  intros Hv. unfold pinned_version, H5F_LIBVER_LATEST.
  rewrite !(H5_VERSION_GE_minor v _ Hv).
  unfold H5F_LIBVER_V114, H5F_LIBVER_V112, H5F_LIBVER_V110.
  destruct (String.eqb s "v18"), (String.eqb s "v110"),
    (String.eqb s "v112"), (N.leb_spec 13 (minnum v)),
    (N.leb_spec 12 (minnum v)), (N.leb_spec 10 (minnum v));
    intros [= <-]; lia.
Qed.

Lemma H5F_LIBVER_LATEST_pos (v : libversion) : 1 <= H5F_LIBVER_LATEST v.
Proof.
  unfold H5F_LIBVER_LATEST, H5F_LIBVER_V114, H5F_LIBVER_V112, H5F_LIBVER_V110.
  destruct (H5_VERSION_GE v 1 13 0), (H5_VERSION_GE v 1 12 0),
    (H5_VERSION_GE v 1 10 0); lia.
Qed.

Lemma libver_bounds_result (v : libversion) (config : configuration) :
  libversion_asserted v = true ->
  libver_bounds v config =
    if libver_low v (libver_bound_low config)
       <=? libver_high v (libver_bound_high config)
    then Passed (libver_low v (libver_bound_low config),
                 libver_high v (libver_bound_high config))
    else AssertionFailed "low <= high".
Proof.
  intros Hv. unfold libver_bounds. rewrite Hv. cbn [negb].
  now destruct (_ <=? _).
Qed.

(** C10, as the code has it: for a library version that passes the first
    assertion, the resolved bounds satisfy low <= high exactly when the low
    string is "earliest", or the high string pins no version (it is "latest",
    unrecognized, or names a version the library does not provide, and so
    resolves to LATEST), or both strings pin versions in order; the
    assertion is the only way the resolution fails; and a low string that
    resolves to LATEST with a high string that pins a version fails it. *)
Theorem libver_bounds_ordered_iff (v : libversion) (config : configuration) :
  libversion_asserted v = true ->
  let lo := cstr (libver_bound_low config) in
  let hi := cstr (libver_bound_high config) in
  ((exists low high,
       libver_bounds v config = Passed (low, high) /\ low <= high)
   <-> (lo = "earliest" \/ pinned_version v hi = None
        \/ exists a b, pinned_version v lo = Some a
                       /\ pinned_version v hi = Some b /\ a <= b))
  /\ (libver_bounds v config = AssertionFailed "low <= high"
      \/ exists low high, libver_bounds v config = Passed (low, high))
  /\ (lo <> "earliest" -> pinned_version v lo = None ->
      forall b, pinned_version v hi = Some b ->
      libver_bounds v config = AssertionFailed "low <= high").
Proof.
  intros Hv lo hi. rewrite (libver_bounds_result v config Hv).
  rewrite libver_low_cases, libver_high_cases. fold lo hi.
  pose proof (H5F_LIBVER_LATEST_pos v) as HL.
  pose proof (pinned_version_below_latest v lo) as Plo.
  pose proof (pinned_version_below_latest v hi) as Phi.
  unfold H5F_LIBVER_EARLIEST.
  destruct (String.eqb_spec lo "earliest") as [E|NE];
    destruct (pinned_version v lo) as [a|];
    destruct (pinned_version v hi) as [b|];
    try (specialize (Plo _ Hv eq_refl));
    try (specialize (Phi _ Hv eq_refl));
    match goal with
    | |- context [?x <=? ?y] => destruct (Z.leb_spec x y)
    end; try lia;
    (split; [split|split]);
    try (intros (? & ? & [= <- <-] & ?));
    try (intros [?|[?|(? & ? & [= <-] & [= <-] & ?)]]);
    try (intros ? ? ? [= <-]);
    try congruence; try lia; eauto 8.
Qed.

Lemma libver_bounds_ordered_v18_v110 :
  libversion_asserted hdf5_1_12 = true
  /\ exists low high,
       libver_bounds hdf5_1_12 (with_bounds scenario_A "v18" "v110")
       = Passed (low, high) /\ low <= high.
Proof.
  assert (Hv : libversion_asserted hdf5_1_12 = true) by reflexivity.
  split; [exact Hv|].
  apply (proj1 (libver_bounds_ordered_iff hdf5_1_12
                  (with_bounds scenario_A "v18" "v110") Hv)).
  right. right. exists 1, 2. repeat split. simpl. lia.
Defined.

(** C10 as stated fails: with HDF5 1.12, an unrecognized low string resolves
    to LATEST (3), the high string "v18" to 1, and the assertion fails. *)
Lemma libver_bounds_unrecognized_low :
  let config := with_bounds scenario_A "bogus" "v18" in
  libversion_asserted hdf5_1_12 = true
  /\ libver_low hdf5_1_12 (libver_bound_low config)
     = H5F_LIBVER_LATEST hdf5_1_12
  /\ libver_high hdf5_1_12 (libver_bound_high config) = H5F_LIBVER_V18
  /\ (libver_low hdf5_1_12 (libver_bound_low config)
      <=? libver_high hdf5_1_12 (libver_bound_high config)) = false
  /\ libver_bounds hdf5_1_12 config = AssertionFailed "low <= high".
Proof. repeat split. Qed.

(** ** Formatted output and the CSV record (lines 194-219) *)

Lemma append_assoc (a b c : string) :
  ((a ++ b) ++ c = a ++ (b ++ c))%string.
Proof. induction a as [|x a IH]; simpl; [reflexivity | now rewrite IH]. Qed.

Lemma free_of_app (sep : ascii) (a b : string) :
  free_of sep (a ++ b) = free_of sep a && free_of sep b.
Proof.
  induction a as [|x a IH]; simpl; [reflexivity|].
  now rewrite IH, andb_assoc.
Qed.

Lemma plain_field_app (a b : string) :
  plain_field (a ++ b) = plain_field a && plain_field b.
Proof.
  unfold plain_field. rewrite !free_of_app.
  destruct (free_of "," a), (free_of "," b), (free_of LF a), (free_of LF b);
    reflexivity.
Qed.

Lemma plain_field_String (c : ascii) (s : string) :
  plain_field (String c s) = plain_field (String c EmptyString) && plain_field s.
Proof. apply (plain_field_app (String c EmptyString) s). Qed.

Lemma plain_string_of_uint (u : Decimal.uint) :
  plain_field (NilEmpty.string_of_uint u) = true.
Proof.
  induction u; cbn [NilEmpty.string_of_uint]; [reflexivity| ..];
    rewrite plain_field_String, IHu; reflexivity.
Qed.

Lemma plain_decimal (z : Z) : plain_field (decimal z) = true.
Proof.
  unfold decimal.
  assert (U : forall u, plain_field (NilZero.string_of_uint u) = true).
  { intros u. destruct u; try reflexivity;
      unfold NilZero.string_of_uint; apply plain_string_of_uint. }
  destruct (Z.to_int z) as [u|u]; cbn [NilZero.string_of_int]; [apply U|].
  rewrite plain_field_String, U. reflexivity.
Qed.

Lemma plain_zeros (n : nat) : plain_field (zeros n) = true.
Proof.
  induction n as [|n IH]; [reflexivity|]. cbn [zeros].
  now rewrite plain_field_String, IH.
Qed.

Lemma plain_fixed_digits (p : nat) (n : Z) : plain_field (fixed_digits p n) = true.
Proof.
  unfold fixed_digits. rewrite plain_field_app, plain_decimal.
  destruct p; [reflexivity|]. rewrite plain_field_String. unfold zero_pad.
  now rewrite plain_field_app, plain_zeros, plain_decimal.
Qed.

Lemma plain_format_f (p : nat) (d : double) : plain_field (format_f p d) = true.
Proof.
  unfold format_f.
  destruct (Prim2SF d) as [s|s| |s m e]; try reflexivity;
    rewrite plain_field_app, ?plain_fixed_digits; now destruct s.
Qed.

Lemma split_on_free (sep : ascii) (a : string) :
  free_of sep a = true -> split_on sep a = [a].
Proof.
  induction a as [|c a IH]; [reflexivity|]. cbn [free_of split_on].
  destruct (Ascii.eqb c sep); [discriminate|]. cbn [negb andb].
  now intros H; rewrite (IH H).
Qed.

Lemma split_on_app (sep : ascii) (a b : string) :
  free_of sep a = true ->
  split_on sep (a ++ String sep b) = a :: split_on sep b.
Proof.
  induction a as [|c a IH]; cbn [free_of split_on append].
  - now rewrite Ascii.eqb_refl.
  - destruct (Ascii.eqb c sep); [discriminate|]. cbn [negb andb].
    now intros H; rewrite (IH H).
Qed.

Lemma split_on_join (sep : ascii) (l : list string) :
  l <> [] -> Forall (fun f => free_of sep f = true) l ->
  split_on sep (join sep l) = l.
Proof.
  induction l as [|a l IH]; [congruence|]. intros _ H.
  inversion H as [|? ? Ha Hl]; subst. destruct l as [|b l].
  - now apply split_on_free.
  - change (join sep (a :: b :: l)) with (a ++ String sep (join sep (b :: l)))%string.
    rewrite split_on_app by assumption. f_equal. apply IH; [discriminate|assumption].
Qed.

Lemma free_of_join (c sep : ascii) (l : list string) :
  Ascii.eqb sep c = false ->
  Forall (fun f => free_of c f = true) l -> free_of c (join sep l) = true.
Proof.
  intros Hs. induction l as [|a l IH]; [reflexivity|]. intros H.
  inversion H as [|? ? Ha Hl]; subst. destruct l as [|b l]; [exact Ha|].
  change (join sep (a :: b :: l)) with (a ++ String sep (join sep (b :: l)))%string.
  rewrite free_of_app, Ha. cbn [free_of andb]. rewrite Hs. now apply IH.
Qed.

Lemma split_lines (header row : string) :
  free_of LF header = true -> free_of LF row = true ->
  split_on LF (line header ++ line row) = [header; row; EmptyString].
Proof.
  intros Hh Hr. unfold line. rewrite append_assoc.
  cbn [append]. rewrite split_on_app by assumption.
  now rewrite split_on_app by assumption.
Qed.

Lemma csv_header_printed :
  fprintf csv_header_format [] = Some (line (join "," csv_field_names)).
Proof. reflexivity. Qed.

Lemma csv_row_printed (config : configuration) (wall_time : double)
  (fsize : Z) (st : statistics) :
  fprintf csv_row_format (csv_row_args config wall_time fsize st)
  = Some (line (join "," (csv_row_values config wall_time fsize st))).
Proof.
  unfold fprintf.
  let ds := eval vm_compute in (parse_format csv_row_format) in
  change (parse_format csv_row_format) with ds.
  cbn [map concat app csv_row_args format_directives render option_map].
  unfold line, csv_row_values. cbn [join].
  repeat (rewrite append_assoc; cbn [append]). reflexivity.
Qed.

Lemma csv_row_values_plain (config : configuration) (wall_time : double)
  (fsize : Z) (st : statistics) :
  csv_strings_plain config = true ->
  Forall (fun f => plain_field f = true)
         (csv_row_values config wall_time fsize st).
Proof.
  unfold csv_strings_plain. rewrite !andb_true_iff.
  intros ((((H1 & H2) & H3) & H4) & H5). unfold csv_row_values.
  repeat (apply Forall_cons); try apply Forall_nil;
    try apply plain_decimal; try apply plain_format_f; assumption.
Qed.

Lemma plain_field_free (s : string) :
  plain_field s = true -> free_of "," s = true /\ free_of LF s = true.
Proof. unfold plain_field. intros H. now apply andb_prop in H. Qed.

(** C5, as the code has it: when the five strings of the configuration hold
    no comma and no line feed, the CSV file is a header line and a data line;
    the header has the 26 fields of the design document in its order, spelled
    with a blank before the bracketed unit ("wall [s]", "fsize [B]",
    "write-phase-min [s]", ...); the data line has the 26 rendered values in
    the same order. *)
Theorem csv_record_fields (config : configuration) (wall_time : double)
  (fsize : Z) (st : statistics) :
  csv_strings_plain config = true ->
  exists header row,
    csv_content config wall_time fsize st = Some (line header ++ line row)%string
    /\ split_on LF (line header ++ line row) = [header; row; EmptyString]
    /\ split_on "," header = csv_field_names
    /\ List.length (split_on "," header) = 26%nat
    /\ map (remove_char " ") (split_on "," header) = spec_field_names
    /\ split_on "," row = csv_row_values config wall_time fsize st
    /\ List.length (split_on "," row) = 26%nat.
Proof.
  intros H.
  pose proof (csv_row_values_plain config wall_time fsize st H) as P.
  assert (Pc : Forall (fun f => free_of "," f = true)
                 (csv_row_values config wall_time fsize st)).
  { eapply Forall_impl; [|exact P]. intros f Hf. now apply plain_field_free. }
  assert (Pl : Forall (fun f => free_of LF f = true)
                 (csv_row_values config wall_time fsize st)).
  { eapply Forall_impl; [|exact P]. intros f Hf. now apply plain_field_free. }
  assert (Hrow : split_on "," (join "," (csv_row_values config wall_time fsize st))
                 = csv_row_values config wall_time fsize st).
  { apply split_on_join; [discriminate | exact Pc]. }
  exists (join "," csv_field_names),
         (join "," (csv_row_values config wall_time fsize st)).
  split.
  { unfold csv_content. now rewrite csv_header_printed, csv_row_printed. }
  split.
  { apply split_lines; [reflexivity|]. now apply free_of_join. }
  split; [reflexivity|]. split; [reflexivity|]. split; [reflexivity|].
  split; [exact Hrow|]. now rewrite Hrow.
Qed.

Lemma csv_record_fields_scenario_B :
  csv_strings_plain scenario_B = true
  /\ exists header row,
    csv_content scenario_B 12.5%float 4096 (reduce_all sample_timings)
    = Some (line header ++ line row)%string
    /\ split_on LF (line header ++ line row) = [header; row; EmptyString]
    /\ split_on "," header = csv_field_names
    /\ List.length (split_on "," header) = 26%nat
    /\ map (remove_char " ") (split_on "," header) = spec_field_names
    /\ split_on "," row
       = csv_row_values scenario_B 12.5%float 4096 (reduce_all sample_timings)
    /\ List.length (split_on "," row) = 26%nat.
Proof.
  split; [reflexivity|].
  apply (csv_record_fields scenario_B 12.5%float 4096 (reduce_all sample_timings)).
  reflexivity.
Defined.

Example csv_row_scenario_B :
  csv_row_values scenario_B 12.5%float 4096 (reduce_all sample_timings)
  = [ "1"; "1"; "20"; "20"; "strong"; "2"; "2"; "step"; "2"; "1"; "0";
      "contiguous"; "true"; "independent"; "12.50"; "4096";
      "2.00"; "3.00"; "0.25"; "0.75"; "1.00"; "2.00";
      "1.00"; "1.75"; "0.50"; "1.50" ].
Proof. vm_compute. reflexivity. Qed.

(** C5 as stated fails on the names: the header the program writes for
    scenario B has "wall [s]" as its fifteenth field, the design document
    lists "wall[s]"; twelve of the 26 listed names differ from the written
    ones in this way. *)
Lemma csv_header_names_differ :
  exists header row,
    csv_content scenario_B 12.5%float 4096 (reduce_all sample_timings)
    = Some (line header ++ line row)%string
    /\ List.length (split_on "," header) = 26%nat
    /\ nth 14 (split_on "," header) EmptyString = "wall [s]"
    /\ nth 14 spec_field_names EmptyString = "wall[s]"
    /\ split_on "," header <> spec_field_names
    /\ List.length
         (filter (fun p => negb (String.eqb (fst p) (snd p)))
                 (combine (split_on "," header) spec_field_names)) = 12%nat.
Proof.
  exists (join "," csv_field_names),
         (join "," (csv_row_values scenario_B 12.5%float 4096
                      (reduce_all sample_timings))).
  split.
  { unfold csv_content. now rewrite csv_header_printed, csv_row_printed. }
  repeat split. discriminate.
Qed.

(** ** The order of phases (lines 108-136) *)

Section Phases.

Variable sanity_check : configuration -> bool.
Variable validate : configuration -> Z -> bool.

Lemma csv_content_defined (config : configuration) (w : double) (f : Z)
  (st : statistics) : exists s, csv_content config w f st = Some s.
Proof.
  unfold csv_content. rewrite csv_header_printed, csv_row_printed. eauto.
Qed.

(** The calls of [main] follow its three barriers: whatever the input and
    wherever the process stops. *)
Lemma main_well_phased (inp : run_input) (mpi_rank : Z) (received : configuration) :
  well_phased 0 (fst (main sanity_check validate inp mpi_rank received)).
Proof.
  unfold main, read_config, set_libver_bounds, report, reductions, when,
    checked, refuse, defined.
  destruct (csv_content_defined
              (match (if mpi_rank =? 0 then in_parsed inp else None) with
               | Some c => c | None => received end)
              (in_wall_time inp) (in_fsize inp)
              (reduce_all (in_timings inp))) as [s Hs].
  destruct (mpi_rank =? 0); [destruct (in_parsed inp) as [config|]|];
    try destruct (sanity_check config); try destruct (validate config _);
    cbn -[grid_coordinate local_extent libver_bounds reduce_all byte_count
          compute_rates Z.gtb csv_content];
    repeat match goal with
      | |- context [grid_coordinate ?c ?r] => destruct (grid_coordinate c r)
      | |- context [local_extent ?c] => destruct (local_extent c)
      | |- context [?a >? ?b] => destruct (a >? b)
      | |- context [libver_bounds ?v ?c] =>
          destruct (libver_bounds v c) as [[? ?]|?]
      end;
    cbn -[reduce_all byte_count compute_rates csv_content];
    rewrite ?Hs;
    cbn -[reduce_all byte_count compute_rates csv_content];
    repeat split.
Qed.

Lemma well_phased_later (l : list event) : forall s,
  well_phased s l ->
  Forall (fun e => is_barrier e = true \/ s <= phase_of e)%nat l.
Proof.
  induction l as [|e l IH]; intros s H; [constructor|].
  cbn [well_phased] in H. destruct (is_barrier e) eqn:B.
  - constructor; [now left|]. apply IH in H.
    eapply Forall_impl; [|exact H]. intros x [Hx|Hx]; [now left | right; lia].
  - destruct H as [He H]. constructor; [right; lia | now apply IH].
Qed.

Lemma Forall_replace_nth (P : process -> Prop) (q : process) (w : world) :
  forall i, Forall P w -> P q -> Forall P (replace_nth i q w).
Proof.
  induction w as [|p w IH]; intros i H Hq; [constructor|].
  inversion H; subst. destruct i; cbn [replace_nth]; constructor; auto.
Qed.

Lemma try_local_inv (w : world) (i : nat) (l : label) (w' : world) :
  try_local w i = Some (l, w') ->
  exists p e rest,
    nth_error w i = Some p /\ todo p = e :: rest /\ is_barrier e = false
    /\ (is_bcast e = true -> i <> 0%nat -> bcast_posted w = true)
    /\ l = Local i e /\ w' = replace_nth i (pass p) w.
Proof.
  unfold try_local. destruct (nth_error w i) as [p|]; [|discriminate].
  destruct (todo p) as [|e rest] eqn:T; [discriminate|].
  destruct (is_barrier e) eqn:B; [discriminate|].
  destruct (is_bcast e && negb (Nat.eqb i 0) && negb (bcast_posted w)) eqn:G;
    [discriminate|].
  intros [= <- <-]. exists p, e, rest. repeat split; try assumption.
  intros Hb Hi. rewrite Hb in G. apply Nat.eqb_neq in Hi. rewrite Hi in G.
  cbn in G. now destruct (bcast_posted w).
Qed.

Lemma in_phase_pass_local (s : nat) (p : process) (e : event) (rest : list event) :
  in_phase s p -> todo p = e :: rest -> is_barrier e = false ->
  phase_of e = s /\ in_phase s (pass p).
Proof.
  intros [Hd Ht] T B. rewrite T in Ht. cbn [well_phased] in Ht.
  rewrite B in Ht. destruct Ht as [He Ht]. split; [exact He|].
  unfold in_phase, pass. rewrite T. cbn [done todo]. split; [|exact Ht].
  apply Forall_app. split; [exact Hd|]. constructor; [right; lia|constructor].
Qed.

Lemma in_phase_pass_barrier (s : nat) (p : process) :
  in_phase s p -> at_barrier p = true -> in_phase (S s) (pass p).
Proof.
  intros [Hd Ht]. unfold at_barrier, pass, in_phase.
  destruct (todo p) as [|e rest]; [discriminate|]. intros B.
  cbn [well_phased] in Ht. rewrite B in Ht. cbn [done todo].
  split; [|exact Ht]. apply Forall_app. split.
  - eapply Forall_impl; [|exact Hd]. intros x [Hx|Hx]; [now left|right; lia].
  - constructor; [now left|constructor].
Qed.

Lemma step_in_phase (s : nat) (w w' : world) (l : label) :
  Forall (in_phase s) w -> step w l w' ->
  match l with
  | Local _ e => phase_of e = s /\ Forall (in_phase s) w'
  | Barrier => Forall (in_phase (S s)) w'
  end.
Proof.
  intros H St. destruct St as [w i l w' T | w NE B].
  - apply try_local_inv in T as (p & e & rest & Hn & Ht & Hb & _ & -> & ->).
    assert (Hp : in_phase s p).
    { rewrite Forall_forall in H. apply H. eapply nth_error_In; eauto. }
    destruct (in_phase_pass_local s p e rest Hp Ht Hb) as [He Hp'].
    split; [exact He|]. now apply Forall_replace_nth.
  - rewrite forallb_forall in B. rewrite Forall_forall in H.
    apply Forall_forall. intros q Hq. apply in_map_iff in Hq as (p & <- & Hp).
    apply in_phase_pass_barrier; auto.
Qed.

Lemma execution_in_phase (w w' : world) (tr : list label) :
  execution w tr w' -> forall s,
  Forall (in_phase s) w ->
  (forall pre i e post, tr = pre ++ Local i e :: post ->
     phase_of e = (s + barriers pre)%nat)
  /\ Forall (in_phase (s + barriers tr)) w'.
Proof.
  induction 1 as [w | w w' w'' l tr St Ex IH]; intros s H.
  - split; [intros [|? ?] ? ? ? E; discriminate|].
    cbn [barriers]. now rewrite Nat.add_0_r.
  - pose proof (step_in_phase s w w' l H St) as K. destruct l as [j e0|].
    + destruct K as [He K]. destruct (IH s K) as [IH1 IH2]. split.
      * intros [|x pre] i e post E; cbn [app] in E; inversion E; subst;
          cbn [barriers]; [lia | eapply IH1; eauto].
      * exact IH2.
    + destruct (IH (S s) K) as [IH1 IH2]. split.
      * intros [|x pre] i e post E; cbn [app] in E; [discriminate|].
        inversion E; subst. cbn [barriers].
        rewrite Nat.add_succ_r. eapply IH1; eauto.
      * cbn [barriers]. now rewrite Nat.add_succ_r.
Qed.

Lemma init_world_in_phase (inp : run_input) :
  Forall (in_phase 0) (init_world sanity_check validate inp).
Proof.
  unfold init_world. apply Forall_map, Forall_forall. intros i _.
  split; [constructor | apply main_well_phased].
Qed.

End Phases.

Lemma barriers_app (a b : list label) :
  barriers (a ++ b) = (barriers a + barriers b)%nat.
Proof.
  induction a as [|l a IH]; [reflexivity|].
  destruct l; simpl; [exact IH | now f_equal].
Qed.

(** C7: in every execution of the processes of a run, a call is made after
    as many barriers as its phase counts: the broadcast and the rest of the
    start-up before the first barrier, the write test between the first and
    the second, the read test between the second and the third, the file-size
    query, the reductions and the report after the third; no call of an
    earlier phase follows a call of a later phase, whichever processes make
    them; and at every moment no process has made a call of a later phase
    than the barriers passed so far, nor has one of an earlier phase left to
    make. *)
Theorem phases_globally_ordered
  (sanity_check : configuration -> bool)
  (validate : configuration -> Z -> bool)
  (inp : run_input) (tr : list label) (w : world) :
  execution (init_world sanity_check validate inp) tr w ->
  (forall pre i e post, tr = pre ++ Local i e :: post ->
     phase_of e = barriers pre)
  /\ (forall pre i e mid j e' post,
        tr = pre ++ Local i e :: mid ++ Local j e' :: post ->
        (phase_of e <= phase_of e')%nat)
  /\ (forall p, In p w ->
        Forall (fun e => is_barrier e = true \/ phase_of e <= barriers tr)%nat
               (done p)
        /\ Forall (fun e => is_barrier e = true \/ barriers tr <= phase_of e)%nat
                  (todo p)).
Proof.
  intros Ex.
  destruct (execution_in_phase _ _ _ Ex 0%nat
              (init_world_in_phase sanity_check validate inp)) as [H1 H2].
  split; [exact H1|]. split.
  - intros pre i e mid j e' post E.
    rewrite (H1 pre i e _ E).
    rewrite (H1 (pre ++ Local i e :: mid) j e' post)
      by (rewrite E, <- app_assoc; reflexivity).
    cbn [Nat.add]. rewrite barriers_app. cbn [barriers]. lia.
  - intros p Hp. rewrite Forall_forall in H2.
    destruct (H2 p Hp) as [Hd Ht]. cbn [Nat.add] in Hd, Ht.
    split; [exact Hd | now apply well_phased_later].
Qed.

Lemma first_local_sound (w : world) (ranks : list nat) (l : label) (w' : world) :
  first_local w ranks = Some (l, w') -> step w l w'.
Proof.
  induction ranks as [|i ranks IH]; cbn [first_local]; [discriminate|].
  destruct (try_local w i) as [[l0 w0]|] eqn:T; [|exact IH].
  intros [= <- <-]. now apply (step_local w i).
Qed.

Lemma sched_step_sound (w : world) (l : label) (w' : world) :
  sched_step w = Some (l, w') -> step w l w'.
Proof.
  unfold sched_step.
  destruct (first_local w (seq 0 (List.length w))) as [[l0 w0]|] eqn:F.
  - intros [= <- <-]. eapply first_local_sound; eauto.
  - destruct w as [|p w0]; [discriminate|].
    destruct (forallb at_barrier (p :: w0)) eqn:B; [|discriminate].
    intros [= <- <-]. apply step_barrier; [discriminate | exact B].
Qed.

(** The scheduler produces executions. *)
Lemma run_sound (fuel : nat) : forall w,
  execution w (fst (run fuel w)) (snd (run fuel w)).
Proof.
  induction fuel as [|fuel IH]; intros w; cbn [run]; [constructor|].
  destruct (sched_step w) as [[l w']|] eqn:S; [|constructor].
  specialize (IH w'). destruct (run fuel w') as [tr w''].
  cbn [fst snd] in *. econstructor; [|exact IH]. now apply sched_step_sound.
Qed.

(** Two processes on the 1x2 grid run to completion through three barriers. *)
Lemma phases_two_processes :
  let w0 := init_world spec_sanity_check spec_validate
              (two_process_input scenario_two) in
  let tr := fst (run 100 w0) in
  let w := snd (run 100 w0) in
  execution w0 tr w
  /\ finished w = true
  /\ barriers tr = 3%nat
  /\ (forall pre i e post, tr = pre ++ Local i e :: post ->
        phase_of e = barriers pre)
  /\ (forall pre i e mid j e' post,
        tr = pre ++ Local i e :: mid ++ Local j e' :: post ->
        (phase_of e <= phase_of e')%nat)
  /\ (forall p, In p w ->
        Forall (fun e => is_barrier e = true \/ phase_of e <= barriers tr)%nat
               (done p)
        /\ Forall (fun e => is_barrier e = true \/ barriers tr <= phase_of e)%nat
                  (todo p)).
Proof.
  intros w0 tr w.
  assert (Ex : execution w0 tr w) by apply run_sound.
  split; [exact Ex|]. split; [vm_compute; reflexivity|].
  split; [vm_compute; reflexivity|].
  exact (phases_globally_ordered spec_sanity_check spec_validate
           (two_process_input scenario_two) tr w Ex).
Defined.

(** The calls of the two processes, by rank and phase, as scheduled. *)
Example phases_two_processes_trace :
  map (fun l => match l with
                | Local i e => Some (i, phase_of e)
                | Barrier => None
                end)
      (fst (run 100 (init_world spec_sanity_check spec_validate
                       (two_process_input scenario_two))))
  = (repeat (Some (0, 0)) 13 ++ repeat (Some (1, 0)) 8
     ++ [None; Some (0, 1); Some (1, 1); None; Some (0, 2); Some (1, 2); None]
     ++ repeat (Some (0, 3)) 16 ++ repeat (Some (1, 3)) 13)%nat.
Proof. vm_compute. reflexivity. Qed.

(** ** Configuration errors (lines 57-70 and 281) *)

Section ConfigErrors.

Variable sanity_check : configuration -> bool.
Variable validate : configuration -> Z -> bool.

Local Abbreviation main' := (main sanity_check validate).
Local Abbreviation accepted' := (accepted sanity_check validate).

(** What rank 0 does when the configuration is not accepted. *)
Lemma main_root_rejected (inp : run_input) (received : configuration) :
  accepted' inp = None ->
  main' inp 0 received
    = ([EvMPI_Init; EvIniParse (ini_name (in_argv inp)); cannot_load inp],
       Returned 1)
  \/ main' inp 0 received
     = ([EvMPI_Init; EvIniParse (ini_name (in_argv inp)); EvSanityCheck;
         EvDiagnostic "sanity_check"], Aborted "sanity_check")
  \/ main' inp 0 received
     = ([EvMPI_Init; EvIniParse (ini_name (in_argv inp)); EvSanityCheck;
         EvValidate; EvDiagnostic "validate"], Aborted "validate").
Proof.
  unfold accepted, main, read_config, checked, refuse. change (0 =? 0) with true.
  destruct (in_parsed inp) as [config|]; [|intros _; left; reflexivity].
  destruct (sanity_check config); [|intros _; right; left; reflexivity].
  destruct (validate config (in_size inp)); [discriminate|].
  intros _. right; right; reflexivity.
Qed.


(** What a process does with an accepted (or received) configuration whose
    bounds fail the assertion of line 281. *)
Lemma main_bounds_rejected (inp : run_input) (mpi_rank : Z)
  (received config : configuration) (expr : string) :
  (mpi_rank = 0 -> accepted' inp = Some config) ->
  (mpi_rank <> 0 -> received = config) ->
  grid_coordinate config mpi_rank <> None ->
  local_extent config <> None ->
  libver_bounds (in_libversion inp) config = AssertionFailed expr ->
  let t := fst (main' inp mpi_rank received) in
  snd (main' inp mpi_rank received) = Aborted expr
  /\ existsb is_bcast t = true
  /\ existsb is_barrier t = false
  /\ Forall (fun e => phase_of e = 0%nat) t.
Proof.
  intros H0 H1 Hg He Hb.
  destruct (grid_coordinate config mpi_rank) as [coord|] eqn:G; [|congruence].
  destruct (local_extent config) as [extent|] eqn:E; [|congruence].
  unfold main, read_config, set_libver_bounds, when, defined, checked, refuse.
  destruct (Z.eqb_spec mpi_rank 0) as [R|R].
  - specialize (H0 R). unfold accepted in H0.
    destruct (in_parsed inp) as [c|]; [|discriminate].
    destruct (sanity_check c); [|discriminate].
    destruct (validate c (in_size inp)); [|discriminate].
    injection H0 as ->. subst mpi_rank.
    cbn -[grid_coordinate local_extent libver_bounds Z.gtb].
    rewrite G, E, Hb. destruct (alignment_increment config >? 1);
      cbn; repeat split; repeat constructor.
  - rewrite (H1 R).
    cbn -[grid_coordinate local_extent libver_bounds Z.gtb].
    rewrite G, E, Hb. destruct (alignment_increment config >? 1);
      cbn; repeat split; repeat constructor.
Qed.

Lemma init_world_root_silent (inp : run_input) :
  accepted' inp = None -> root_silent (init_world sanity_check validate inp).
Proof.
  intros H. unfold init_world.
  destruct (Z.to_nat (in_size inp)) as [|n]; [exact I|].
  cbn [seq map root_silent init_process done todo app Z.of_nat].
  destruct (main_root_rejected inp (delivered inp) H) as [-> | [-> | ->]];
    split; reflexivity.
Qed.

Lemma existsb_false_In {A : Type} (f : A -> bool) (l : list A) (x : A) :
  existsb f l = false -> In x l -> f x = false.
Proof.
  intros H Hx. destruct (f x) eqn:F; [|reflexivity].
  rewrite <- H. symmetry. apply existsb_exists. eauto.
Qed.

Lemma step_root_silent (w w' : world) (l : label) :
  root_silent w -> Forall (in_phase 0) w -> step w l w' ->
  before_bcast l = true /\ root_silent w' /\ Forall (in_phase 0) w'.
Proof.
  intros Hs Hp St. pose proof (step_in_phase 0 w w' l Hp St) as K.
  destruct St as [w i l w' T | w NE B].
  - apply try_local_inv in T as (p & e & rest & Hn & Ht & Hb & Hg & -> & ->).
    destruct K as [He K]. destruct w as [|root w0]; [now destruct i|].
    destruct Hs as [Hs1 Hs2]. rewrite existsb_app in Hs1.
    apply orb_false_elim in Hs1 as [Hd Hto].
    assert (Hnb : is_bcast e = false).
    { destruct i as [|j].
      - injection Hn as <-. apply (existsb_false_In _ _ _ Hto).
        rewrite Ht. now left.
      - destruct (is_bcast e) eqn:Be; [|reflexivity].
        specialize (Hg eq_refl (Nat.neq_succ_0 j)).
        cbn [bcast_posted] in Hg. congruence. }
    split; [cbn [before_bcast]; now rewrite Hnb, He|]. split; [|exact K].
    destruct i as [|j]; cbn [replace_nth root_silent]; [|].
    + injection Hn as <-. unfold pass. rewrite Ht. cbn [done todo].
      rewrite Ht in Hto, Hs2. cbn [existsb] in Hto, Hs2.
      apply orb_false_elim in Hto as [Hto1 Hto2].
      apply orb_false_elim in Hs2 as [_ Hs2].
      split; [|exact Hs2]. rewrite !existsb_app. cbn [existsb].
      now rewrite Hd, Hto1, Hto2.
    + split; [|exact Hs2]. rewrite existsb_app. now rewrite Hd, Hto.
  - exfalso. destruct w as [|root w0]; [congruence|].
    destruct Hs as [_ Hs2]. cbn [forallb] in B.
    apply andb_prop in B as [B _]. unfold at_barrier in B.
    destruct (todo root) as [|e rest]; [discriminate|].
    cbn [existsb] in Hs2. now rewrite B in Hs2.
Qed.


End ConfigErrors.








(** The calls of rank 0 for version bounds given with the newer name
    first. *)
Example misordered_bounds_refused :
  main spec_sanity_check spec_validate
    (two_process_input (with_bounds scenario_two "v110" "v18")) 0 scenario_A
  = ([EvMPI_Init; EvIniParse "hdf5_iotest.ini"; EvSanityCheck;
      EvDiagnostic "sanity_check"], Aborted "sanity_check").
Proof. vm_compute. reflexivity. Qed.

Example unreadable_run :
  main spec_sanity_check spec_validate unreadable_input 0 scenario_A
  = ([EvMPI_Init; EvIniParse "missing.ini"; cannot_load unreadable_input],
     Returned 1)
  /\ map (fun p => List.length (done p))
         (snd (run 100 (init_world spec_sanity_check spec_validate
                          unreadable_input)))
     = [3; 1]%nat.
Proof. split; vm_compute; reflexivity. Qed.

(** ** Mode selection (lines 75-84) *)

(** Past the broadcast a process goes on to create the transfer property
    list and to set the mode its flag selects. *)
Lemma main_sets_dxpl
  (sanity_check : configuration -> bool)
  (validate : configuration -> Z -> bool)
  (inp : run_input) (mpi_rank : Z) (received config : configuration) :
  (mpi_rank = 0 -> accepted sanity_check validate inp = Some config) ->
  (mpi_rank <> 0 -> received = config) ->
  grid_coordinate config mpi_rank <> None ->
  local_extent config <> None ->
  exists pre post,
    fst (main sanity_check validate inp mpi_rank received)
    = pre ++ EvMPI_Bcast :: EvH5Pcreate "H5P_DATASET_XFER"
          :: EvH5Pset_dxpl_mpio (dxpl_mpio config) :: post.
Proof.
  intros H0 H1 Hg He.
  destruct (grid_coordinate config mpi_rank) as [coord|] eqn:G; [|congruence].
  destruct (local_extent config) as [extent|] eqn:E; [|congruence].
  destruct (csv_content_defined config (in_wall_time inp) (in_fsize inp)
              (reduce_all (in_timings inp))) as [s Hs].
  unfold main, read_config, set_libver_bounds, report, reductions, when,
    defined, checked, refuse.
  destruct (Z.eqb_spec mpi_rank 0) as [R|R].
  - specialize (H0 R). unfold accepted in H0.
    destruct (in_parsed inp) as [c|]; [|discriminate].
    destruct (sanity_check c); [|discriminate].
    destruct (validate c (in_size inp)); [|discriminate].
    injection H0 as ->. subst mpi_rank.
    exists [EvMPI_Init; EvIniParse (ini_name (in_argv inp)); EvSanityCheck;
            EvValidate].
    cbn -[grid_coordinate local_extent libver_bounds Z.gtb reduce_all
          byte_count compute_rates csv_content].
    rewrite G, E, Hs.
    destruct (alignment_increment config >? 1),
      (libver_bounds (in_libversion inp) config) as [[? ?]|?];
      cbn -[reduce_all byte_count compute_rates]; eexists; reflexivity.
  - rewrite (H1 R). exists [EvMPI_Init].
    cbn -[grid_coordinate local_extent libver_bounds Z.gtb reduce_all
          byte_count compute_rates csv_content].
    rewrite G, E.
    destruct (alignment_increment config >? 1),
      (libver_bounds (in_libversion inp) config) as [[? ?]|?];
      cbn -[reduce_all byte_count compute_rates]; eexists; reflexivity.
Qed.

(** C9: both selections are two-way: the strong-scaling flag is set exactly
    when the C string in [scaling] is "strong" and every other content gives
    the weak-scaling extent; the collective flag is set exactly when the C
    string in [mpi_io] is "collective" and every other content gives
    independent transfers; only the first 16 characters of either array are
    read; and whatever the two strings hold, a process that is past the
    broadcast goes on to set the selected transfer mode. *)
Theorem mode_selection_two_way (config : configuration) :
  (strong_scaling_flg config = true <-> cstr (scaling config) = "strong")
  /\ (cstr (scaling config) <> "strong" ->
      local_extent config = Some (rows config, cols config))
  /\ (coll_mpi_io_flg config = true <-> cstr (mpi_io config) = "collective")
  /\ (cstr (mpi_io config) = "collective" ->
      dxpl_mpio config = H5FD_MPIO_COLLECTIVE)
  /\ (cstr (mpi_io config) <> "collective" ->
      dxpl_mpio config = H5FD_MPIO_INDEPENDENT)
  /\ (forall config',
        strn 16 (scaling config') = strn 16 (scaling config) ->
        strn 16 (mpi_io config') = strn 16 (mpi_io config) ->
        strong_scaling_flg config' = strong_scaling_flg config
        /\ dxpl_mpio config' = dxpl_mpio config)
  /\ (forall sanity_check validate inp mpi_rank received,
        (mpi_rank = 0 -> accepted sanity_check validate inp = Some config) ->
        (mpi_rank <> 0 -> received = config) ->
        grid_coordinate config mpi_rank <> None ->
        local_extent config <> None ->
        exists pre post,
          fst (main sanity_check validate inp mpi_rank received)
          = pre ++ EvMPI_Bcast :: EvH5Pcreate "H5P_DATASET_XFER"
                :: EvH5Pset_dxpl_mpio (dxpl_mpio config) :: post).
Proof.
  pose proof (strong_scaling_flg_iff config) as HS.
  pose proof (coll_mpi_io_flg_iff config) as HC.
  split; [exact HS|]. split.
  { intros NE. apply local_extent_weak.
    destruct (strong_scaling_flg config); [tauto|reflexivity]. }
  split; [exact HC|]. split.
  { intros E. unfold dxpl_mpio. now rewrite (proj2 HC E). }
  split.
  { intros NE. unfold dxpl_mpio.
    destruct (coll_mpi_io_flg config); [tauto|reflexivity]. }
  split.
  { intros config' Hs Hm. split.
    - unfold strong_scaling_flg.
      rewrite (strncmp_prefix 16 (scaling config')),
              (strncmp_prefix 16 (scaling config)). now rewrite Hs.
    - unfold dxpl_mpio, coll_mpi_io_flg.
      rewrite (strncmp_prefix 16 (mpi_io config')),
              (strncmp_prefix 16 (mpi_io config)). now rewrite Hm. }
  intros sc va inp mpi_rank received. apply main_sets_dxpl.
Qed.

(** Strings that are neither value: "Strong" selects weak scaling, "both"
    selects independent transfers, and the run goes on. *)
Example mode_selection_unrecognized :
  let config :=
    {| steps := 1; arrays := 1; rows := 20; cols := 20; scaling := "Strong";
       proc_rows := 1; proc_cols := 2; slowest_dimension := "step";
       rank := 2; alignment_increment := 1; alignment_threshold := 0;
       layout := "contiguous"; fill_values := "true"; mpi_io := "both";
       libver_bound_low := "earliest"; libver_bound_high := "latest";
       hdf5_file := "hdf5_iotest.h5"; csv_file := "hdf5_iotest.csv" |} in
  strong_scaling_flg config = false
  /\ local_extent config = Some (20, 20)
  /\ dxpl_mpio config = H5FD_MPIO_INDEPENDENT
  /\ snd (main (fun _ => true) (fun _ _ => true)
            (two_process_input config) 1 config) = Returned 0.
Proof. repeat split. Qed.

(** ** Complete runs *)

(** With an accepted configuration, a defined grid coordinate and extent and
    bounds that pass the assertions, [main] returns 0 on every rank after
    broadcast, barrier, write test, barrier, read test, barrier, in this
    order; rank 0 then queries the file size, prints the summary of lines
    138-172 and writes the CSV record. *)
Lemma main_completes
  (sanity_check : configuration -> bool)
  (validate : configuration -> Z -> bool)
  (inp : run_input) (mpi_rank : Z) (received config : configuration)
  (coord extent bounds : Z * Z) :
  (mpi_rank = 0 -> accepted sanity_check validate inp = Some config) ->
  (mpi_rank <> 0 -> received = config) ->
  grid_coordinate config mpi_rank = Some coord ->
  local_extent config = Some extent ->
  libver_bounds (in_libversion inp) config = Passed bounds ->
  let t := fst (main sanity_check validate inp mpi_rank received) in
  snd (main sanity_check validate inp mpi_rank received) = Returned 0
  /\ filter is_milestone t
     = [EvMPI_Bcast; EvMPI_Barrier;
        EvWriteTest (fst coord) (snd coord) (fst extent) (snd extent);
        EvMPI_Barrier;
        EvReadTest (fst coord) (snd coord) (fst extent) (snd extent);
        EvMPI_Barrier]
       ++ (if mpi_rank =? 0 then [EvFileSize (hdf5_file config)] else [])
       ++ [EvMPI_Finalize]
  /\ (mpi_rank = 0 ->
      exists st rt content,
        rank0_summary config (in_timings inp) = Some (st, rt)
        /\ csv_content config (in_wall_time inp) (in_fsize inp) st
           = Some content
        /\ In (EvPrintReport st rt) t
        /\ In (EvFwrite (csv_file config) content) t).
Proof.
  intros H0 H1 G E B.
  destruct (csv_content_defined config (in_wall_time inp) (in_fsize inp)
              (reduce_all (in_timings inp))) as [s Hs].
  destruct bounds as [low high].
  unfold main, read_config, set_libver_bounds, report, reductions, when,
    defined, checked, refuse.
  destruct (Z.eqb_spec mpi_rank 0) as [R|R].
  - specialize (H0 R). unfold accepted in H0.
    destruct (in_parsed inp) as [c|]; [|discriminate].
    destruct (sanity_check c); [|discriminate].
    destruct (validate c (in_size inp)); [|discriminate].
    injection H0 as ->. subst mpi_rank.
    cbn -[grid_coordinate local_extent libver_bounds Z.gtb reduce_all
          byte_count compute_rates csv_content].
    rewrite G, E, B, Hs.
    destruct (alignment_increment config >? 1);
      cbn -[reduce_all byte_count compute_rates csv_content In];
      (split; [reflexivity|]); (split; [reflexivity|]); intros _;
      exists (reduce_all (in_timings inp)),
             (compute_rates (byte_count config (fst extent) (snd extent))
                (reduce_all (in_timings inp))), s;
      (split; [rewrite (rank0_summary_eq config _ (fst extent) (snd extent));
               [reflexivity | now rewrite E; destruct extent]|]);
      (split; [exact Hs|]); split; cbn [In]; auto 50.
  - rewrite (H1 R).
    cbn -[grid_coordinate local_extent libver_bounds Z.gtb reduce_all
          byte_count compute_rates csv_content].
    rewrite G, E, B.
    destruct (alignment_increment config >? 1);
      cbn -[reduce_all byte_count compute_rates csv_content In];
      (split; [reflexivity|]); (split; [reflexivity|]); intros K;
      contradiction.
Qed.

(** ** Further properties of [main] *)

Ltac main_branches :=
  repeat match goal with
    | |- context [grid_coordinate ?c ?r] => destruct (grid_coordinate c r)
    | |- context [local_extent ?c] => destruct (local_extent c)
    | |- context [?a >? ?b] => destruct (a >? b)
    | |- context [libver_bounds ?v ?c] =>
        destruct (libver_bounds v c) as [[? ?]|?]
    end.

(** X1: whatever the input and wherever it stops, a process of rank other
    than 0 makes none of the calls that read or check the configuration file,
    print to the console, query the file size or write the CSV file. *)
Theorem only_rank0_reads_and_reports
  (sanity_check : configuration -> bool)
  (validate : configuration -> Z -> bool)
  (inp : run_input) (mpi_rank : Z) (received : configuration) :
  mpi_rank <> 0 ->
  existsb root_only
    (fst (main sanity_check validate inp mpi_rank received)) = false.
Proof.
  intros Hr. apply Z.eqb_neq in Hr.
  unfold main, set_libver_bounds, reductions, when, defined. rewrite Hr.
  cbn -[grid_coordinate local_extent libver_bounds Z.gtb].
  main_branches; reflexivity.
Qed.

Lemma only_rank0_reads_and_reports_rank1 :
  1 <> 0
  /\ existsb root_only
       (fst (main spec_sanity_check spec_validate
               (two_process_input scenario_two) 1 scenario_two)) = false.
Proof.
  split; [discriminate|].
  apply (only_rank0_reads_and_reports spec_sanity_check spec_validate
           (two_process_input scenario_two) 1 scenario_two). discriminate.
Defined.

(** The hypotheses under which a process gets through [main]: it holds the
    accepted configuration, and its grid coordinate and extent are defined. *)
Ltac enter_main H0 H1 G E :=
  unfold main, read_config, set_libver_bounds, report, reductions, when,
    defined, checked, refuse;
  match goal with
  | |- context [?r =? 0] =>
      destruct (Z.eqb_spec r 0) as [R|R];
      [ specialize (H0 R); unfold accepted in H0;
        destruct (in_parsed _) as [c|]; [|discriminate];
        match type of H0 with
        | context [?s c && ?v c ?n] =>
            destruct (s c); [|discriminate];
            destruct (v c n); [|discriminate]
        end;
        injection H0 as ->; subst r
      | rewrite (H1 R) ]
  end;
  cbn -[grid_coordinate local_extent libver_bounds Z.gtb reduce_all
        byte_count compute_rates csv_content];
  rewrite G, E.

(** X2: a process that returns 0 from [main] has made the collective calls
    MPI_Init, MPI_Bcast, three MPI_Barrier, the ten MPI_Reduce (MIN then MAX,
    five times) and MPI_Finalize, in this order, whatever its rank and its
    input.  The only other return is the one of line 62, with status 1, on
    rank 0 when the configuration file cannot be loaded: MPI_Init is the only
    collective call before it. *)
Theorem collective_calls_match
  (sanity_check : configuration -> bool)
  (validate : configuration -> Z -> bool)
  (inp : run_input) (mpi_rank : Z) (received : configuration) (status : Z) :
  snd (main sanity_check validate inp mpi_rank received) = Returned status ->
  (status = 0
   /\ collectives (fst (main sanity_check validate inp mpi_rank received))
      = [CInit; CBcast; CBarrier; CBarrier; CBarrier;
         CReduce MPI_MIN; CReduce MPI_MAX; CReduce MPI_MIN; CReduce MPI_MAX;
         CReduce MPI_MIN; CReduce MPI_MAX; CReduce MPI_MIN; CReduce MPI_MAX;
         CReduce MPI_MIN; CReduce MPI_MAX; CFinalize])
  \/ (status = 1 /\ mpi_rank = 0 /\ in_parsed inp = None
      /\ collectives (fst (main sanity_check validate inp mpi_rank received))
         = [CInit]).
Proof.
  unfold main, read_config, set_libver_bounds, report, reductions, when,
    checked, refuse, defined.
  destruct (csv_content_defined
              (match (if mpi_rank =? 0 then in_parsed inp else None) with
               | Some c => c | None => received end)
              (in_wall_time inp) (in_fsize inp)
              (reduce_all (in_timings inp))) as [s Hs].
  destruct (Z.eqb_spec mpi_rank 0) as [R|R];
    [destruct (in_parsed inp) as [config|]|];
    try destruct (sanity_check config); try destruct (validate config _);
    cbn -[grid_coordinate local_extent libver_bounds reduce_all byte_count
          compute_rates Z.gtb csv_content];
    main_branches;
    cbn -[reduce_all byte_count compute_rates csv_content];
    rewrite ?Hs;
    cbn -[reduce_all byte_count compute_rates csv_content];
    intros [= <-]; auto.
Qed.

Lemma collective_calls_match_rank1 :
  let inp := two_process_input scenario_two in
  snd (main spec_sanity_check spec_validate inp 1 scenario_two) = Returned 0
  /\ ((0 = 0
       /\ collectives
            (fst (main spec_sanity_check spec_validate inp 1 scenario_two))
          = [CInit; CBcast; CBarrier; CBarrier; CBarrier;
             CReduce MPI_MIN; CReduce MPI_MAX; CReduce MPI_MIN;
             CReduce MPI_MAX; CReduce MPI_MIN; CReduce MPI_MAX;
             CReduce MPI_MIN; CReduce MPI_MAX; CReduce MPI_MIN;
             CReduce MPI_MAX; CFinalize])
      \/ (0 = 1 /\ 1 = 0 /\ in_parsed inp = None
          /\ collectives
               (fst (main spec_sanity_check spec_validate inp 1 scenario_two))
             = [CInit])).
Proof.
  intros inp.
  assert (H : snd (main spec_sanity_check spec_validate inp 1 scenario_two)
              = Returned 0) by (vm_compute; reflexivity).
  split; [exact H|].
  exact (collective_calls_match spec_sanity_check spec_validate inp 1
           scenario_two 0 H).
Defined.

(** The return of line 62 on rank 0. *)
Example collective_calls_unreadable :
  let t := main spec_sanity_check spec_validate unreadable_input 0 scenario_A in
  snd t = Returned 1 /\ collectives (fst t) = [CInit].
Proof. split; vm_compute; reflexivity. Qed.

(** X3: a process that is past the broadcast sets the file alignment exactly
    when [alignment_increment] exceeds 1, once, with the threshold first and
    the increment second; otherwise the access property list keeps the
    library's default alignment. *)
Theorem alignment_set_when_increment_exceeds_one
  (sanity_check : configuration -> bool)
  (validate : configuration -> Z -> bool)
  (inp : run_input) (mpi_rank : Z) (received config : configuration)
  (coord extent : Z * Z) :
  (mpi_rank = 0 -> accepted sanity_check validate inp = Some config) ->
  (mpi_rank <> 0 -> received = config) ->
  grid_coordinate config mpi_rank = Some coord ->
  local_extent config = Some extent ->
  filter is_alignment (fst (main sanity_check validate inp mpi_rank received))
  = if 1 <? alignment_increment config
    then [EvH5Pset_alignment (alignment_threshold config)
                             (alignment_increment config)]
    else [].
Proof.
  intros H0 H1 G E.
  destruct (csv_content_defined config (in_wall_time inp) (in_fsize inp)
              (reduce_all (in_timings inp))) as [s Hs].
  rewrite <- Z.gtb_ltb.
  enter_main H0 H1 G E;
    destruct (alignment_increment config >? 1);
    destruct (libver_bounds (in_libversion inp) config) as [[? ?]|?];
    rewrite ?Hs;
    cbn -[reduce_all byte_count compute_rates csv_content]; reflexivity.
Qed.

Lemma alignment_set_scenario_two :
  filter is_alignment
    (fst (main spec_sanity_check spec_validate
            (two_process_input scenario_two) 1 scenario_two))
  = if 1 <? alignment_increment scenario_two
    then [EvH5Pset_alignment (alignment_threshold scenario_two)
                             (alignment_increment scenario_two)]
    else [].
Proof.
  refine (alignment_set_when_increment_exceeds_one spec_sanity_check
            spec_validate (two_process_input scenario_two) 1 scenario_two
            scenario_two (0, 1) (20, 10) _ _ _ _);
    try reflexivity; intros K; discriminate K.
Defined.

(** X4: with a library version outside 1.8 to 1.13 (HDF5 1.14 for one), every
    process that is past the broadcast aborts on the assertion of line 233,
    whatever the configuration, before the first barrier and before any
    call of the write or read test. *)
Theorem unsupported_library_aborts
  (sanity_check : configuration -> bool)
  (validate : configuration -> Z -> bool)
  (inp : run_input) (mpi_rank : Z) (received config : configuration) :
  libversion_asserted (in_libversion inp) = false ->
  (mpi_rank = 0 -> accepted sanity_check validate inp = Some config) ->
  (mpi_rank <> 0 -> received = config) ->
  grid_coordinate config mpi_rank <> None ->
  local_extent config <> None ->
  let t := fst (main sanity_check validate inp mpi_rank received) in
  snd (main sanity_check validate inp mpi_rank received)
  = Aborted "majnum == 1 && minnum >= 8 && minnum <= 13"
  /\ existsb is_barrier t = false
  /\ Forall (fun e => phase_of e = 0%nat) t.
Proof.
  intros Hv H0 H1 G E.
  assert (B : libver_bounds (in_libversion inp) config
              = AssertionFailed "majnum == 1 && minnum >= 8 && minnum <= 13").
  { unfold libver_bounds. now rewrite Hv. }
  destruct (main_bounds_rejected sanity_check validate inp mpi_rank received
              config _ H0 H1 G E B) as (Ho & _ & Hb & Hp).
  repeat split; assumption.
Qed.

Lemma unsupported_library_aborts_1_14 :
  let inp := {| in_argv := ["hdf5_iotest"]; in_size := 2;
                in_parsed := Some scenario_two; in_stack := scenario_A;
                in_libversion := hdf5_1_14;
                in_timings := firstn 2 sample_timings;
                in_wall_time := 12.5%float; in_fsize := 4096 |} in
  let t := fst (main spec_sanity_check spec_validate inp 1 scenario_two) in
  snd (main spec_sanity_check spec_validate inp 1 scenario_two)
  = Aborted "majnum == 1 && minnum >= 8 && minnum <= 13"
  /\ existsb is_barrier t = false
  /\ Forall (fun e => phase_of e = 0%nat) t.
Proof.
  intros inp.
  refine (unsupported_library_aborts spec_sanity_check spec_validate inp 1
            scenario_two scenario_two _ _ _ _ _);
    try reflexivity; try discriminate; intros K; discriminate K.
Defined.

(** ** Further properties of the version bounds (lines 227-289) *)

(** X5: for a library version that passes the first assertion, the low bound
    lies between EARLIEST and LATEST and the high bound between V18 and
    LATEST: the high bound is never EARLIEST, and the string "earliest" given
    as the high bound resolves to LATEST. *)
Theorem libver_bounds_range (v : libversion) (config : configuration) :
  libversion_asserted v = true ->
  H5F_LIBVER_EARLIEST <= libver_low v (libver_bound_low config)
    <= H5F_LIBVER_LATEST v
  /\ H5F_LIBVER_V18 <= libver_high v (libver_bound_high config)
     <= H5F_LIBVER_LATEST v
  /\ (cstr (libver_bound_high config) = "earliest" ->
      libver_high v (libver_bound_high config) = H5F_LIBVER_LATEST v).
Proof.
  intros Hv. rewrite libver_low_cases, libver_high_cases.
  pose proof (H5F_LIBVER_LATEST_pos v) as HL.
  pose proof (pinned_version_below_latest v
                (cstr (libver_bound_low config))) as Plo.
  pose proof (pinned_version_below_latest v
                (cstr (libver_bound_high config))) as Phi.
  unfold H5F_LIBVER_EARLIEST, H5F_LIBVER_V18. split; [|split].
  - destruct (String.eqb _ "earliest"); [lia|].
    destruct (pinned_version v (cstr (libver_bound_low config))) as [a|];
      [specialize (Plo a Hv eq_refl)|]; lia.
  - destruct (pinned_version v (cstr (libver_bound_high config))) as [b|];
      [specialize (Phi b Hv eq_refl)|]; lia.
  - intros ->. reflexivity.
Qed.

Lemma libver_bounds_range_1_12 :
  let config := with_bounds scenario_A "v110" "earliest" in
  H5F_LIBVER_EARLIEST <= libver_low hdf5_1_12 (libver_bound_low config)
    <= H5F_LIBVER_LATEST hdf5_1_12
  /\ H5F_LIBVER_V18 <= libver_high hdf5_1_12 (libver_bound_high config)
     <= H5F_LIBVER_LATEST hdf5_1_12
  /\ (cstr (libver_bound_high config) = "earliest" ->
      libver_high hdf5_1_12 (libver_bound_high config)
      = H5F_LIBVER_LATEST hdf5_1_12).
Proof.
  intros config.
  exact (libver_bounds_range hdf5_1_12 config eq_refl).
Defined.

(** X6: with a library older than 1.10 (1.8 or 1.9) no named version is
    compiled in: every low string other than "earliest" and every high
    string resolve to LATEST, so the assertion low <= high holds for every
    configuration. *)
Theorem old_library_bounds_always_pass
  (v : libversion) (config : configuration) :
  libversion_asserted v = true -> (minnum v < 10)%N ->
  libver_bounds v config
  = Passed (if String.eqb (cstr (libver_bound_low config)) "earliest"
            then H5F_LIBVER_EARLIEST else H5F_LIBVER_LATEST v,
            H5F_LIBVER_LATEST v).
Proof.
  intros Hv Hm. rewrite (libver_bounds_result v config Hv).
  rewrite libver_low_cases, libver_high_cases.
  assert (P : forall s, pinned_version v s = None).
  { intros s. unfold pinned_version.
    rewrite !(H5_VERSION_GE_minor v _ Hv).
    destruct (N.leb_spec 10 (minnum v)), (N.leb_spec 12 (minnum v)),
      (N.leb_spec 13 (minnum v)); try lia.
    now destruct (String.eqb s "v18"), (String.eqb s "v110"),
      (String.eqb s "v112"). }
  rewrite !P. pose proof (H5F_LIBVER_LATEST_pos v) as HL.
  unfold H5F_LIBVER_EARLIEST.
  destruct (String.eqb _ "earliest");
    match goal with
    | |- context [?x <=? ?y] => destruct (Z.leb_spec x y)
    end; try reflexivity; lia.
Qed.

Lemma old_library_bounds_1_8 :
  let config := with_bounds scenario_A "v112" "v18" in
  libversion_asserted hdf5_1_8 = true /\ (minnum hdf5_1_8 < 10)%N
  /\ libver_bounds hdf5_1_8 config
     = Passed (if String.eqb (cstr (libver_bound_low config)) "earliest"
               then H5F_LIBVER_EARLIEST else H5F_LIBVER_LATEST hdf5_1_8,
               H5F_LIBVER_LATEST hdf5_1_8).
Proof.
  intros config.
  assert (Hv : libversion_asserted hdf5_1_8 = true) by reflexivity.
  assert (Hm : (minnum hdf5_1_8 < 10)%N) by reflexivity.
  split; [exact Hv|]. split; [exact Hm|].
  exact (old_library_bounds_always_pass hdf5_1_8 config Hv Hm).
Defined.

(** ** Further properties of the local extent (lines 75-77) *)

(** X7: under strong scaling on a grid with positive dimensions the division
    drops the remainder: the rows the grid covers, [proc_rows * my_rows], are
    the global rows less [rows mod proc_rows] (and so for the columns); the
    grid covers the global extent exactly when each dimension divides it. *)
Theorem strong_extent_drops_remainder (config : configuration) :
  strong_scaling_flg config = true ->
  0 < proc_rows config -> 0 < proc_cols config ->
  exists r c,
    local_extent config = Some (r, c)
    /\ proc_rows config * r = rows config - rows config mod proc_rows config
    /\ proc_cols config * c = cols config - cols config mod proc_cols config
    /\ (proc_rows config * r = rows config /\ proc_cols config * c = cols config
        <-> (proc_rows config | rows config) /\ (proc_cols config | cols config)).
Proof.
  intros Hs Hr Hc.
  exists (rows config / proc_rows config), (cols config / proc_cols config).
  split; [now apply local_extent_strong|].
  pose proof (Z.div_mod (rows config) (proc_rows config)) as Dr.
  pose proof (Z.div_mod (cols config) (proc_cols config)) as Dc.
  split; [lia|]. split; [lia|].
  rewrite <- !Z.mod_divide by lia. lia.
Qed.

Lemma strong_extent_drops_remainder_21x20 :
  let config := scenario "strong" 21 20 2 2 in
  strong_scaling_flg config = true
  /\ 0 < proc_rows config /\ 0 < proc_cols config
  /\ local_extent config = Some (10, 10)
  /\ exists r c,
    local_extent config = Some (r, c)
    /\ proc_rows config * r = rows config - rows config mod proc_rows config
    /\ proc_cols config * c = cols config - cols config mod proc_cols config
    /\ (proc_rows config * r = rows config /\ proc_cols config * c = cols config
        <-> (proc_rows config | rows config) /\ (proc_cols config | cols config)).
Proof.
  intros config.
  assert (Hs : strong_scaling_flg config = true) by reflexivity.
  assert (Hr : 0 < proc_rows config) by (simpl; lia).
  assert (Hc : 0 < proc_cols config) by (simpl; lia).
  split; [exact Hs|]. split; [exact Hr|]. split; [exact Hc|].
  split; [reflexivity|].
  exact (strong_extent_drops_remainder config Hs Hr Hc).
Defined.

(** ** Further properties of the rates (lines 169-172) *)

Lemma quotient_by_zero_time (bc : double) (m : positive) (e : Z) :
  Prim2SF bc = S754_finite false m e ->
  (bc / (MiB * 0))%float = infinity.
Proof.
  intros H. apply Prim2SF_inj. rewrite div_spec, mul_spec, H.
  assert (Z0 : SF64mul (Prim2SF MiB) (Prim2SF 0) = S754_zero false)
    by (vm_compute; reflexivity).
  rewrite Z0. vm_compute. reflexivity.
Qed.

(** X8: the rates are not guarded against a zero time: for a positive finite
    byte count, a reduced time of 0.0 gives the rate that divides by it the
    value +infinity (the minimum rates divide by the maximum times, the
    maximum rates by the minimum times). *)
Theorem zero_time_gives_infinite_rate
  (bc : double) (st : statistics) (m : positive) (e : Z) :
  Prim2SF bc = S754_finite false m e ->
  (max_write_time st = 0%float ->
   min_write_rate (compute_rates bc st) = infinity)
  /\ (min_write_time st = 0%float ->
      max_write_rate (compute_rates bc st) = infinity)
  /\ (max_read_time st = 0%float ->
      min_read_rate (compute_rates bc st) = infinity)
  /\ (min_read_time st = 0%float ->
      max_read_rate (compute_rates bc st) = infinity).
Proof.
  intros H. pose proof (quotient_by_zero_time bc m e H) as Q.
  unfold compute_rates. cbn [min_write_rate max_write_rate min_read_rate
                              max_read_rate].
  repeat split; intros ->; exact Q.
Qed.

Lemma zero_time_gives_infinite_rate_sample :
  let st := reduce_all [mk_timing 1 0.5 0 1 0.25]%float in
  Prim2SF (byte_count scenario_A 10 10) = S754_finite false 7036874417766400 (-43)
  /\ max_write_time st = 0%float
  /\ min_write_rate (compute_rates (byte_count scenario_A 10 10) st) = infinity.
Proof.
  intros st.
  assert (H : Prim2SF (byte_count scenario_A 10 10)
              = S754_finite false 7036874417766400 (-43))
    by (vm_compute; reflexivity).
  split; [exact H|]. split; [reflexivity|].
  exact (proj1 (zero_time_gives_infinite_rate (byte_count scenario_A 10 10)
                  st _ _ H) eq_refl).
Defined.

(** ** Further properties of the CSV record (lines 205-218) *)

Lemma length_split_on (c : ascii) (s : string) :
  List.length (split_on c s) = S (count_char c s).
Proof.
  induction s as [|d r IH]; [reflexivity|]. cbn [split_on count_char].
  destruct (Ascii.eqb d c); cbn [List.length Nat.add]; [now rewrite IH|].
  destruct (split_on c r) as [|h t]; [discriminate|exact IH].
Qed.

Lemma count_char_app (c : ascii) (a b : string) :
  count_char c (a ++ b) = (count_char c a + count_char c b)%nat.
Proof.
  induction a as [|d a IH]; [reflexivity|]. cbn [append count_char].
  rewrite IH. lia.
Qed.

Lemma count_char_free (c : ascii) (s : string) :
  free_of c s = true -> count_char c s = 0%nat.
Proof.
  induction s as [|d r IH]; [reflexivity|]. cbn [free_of count_char].
  destruct (Ascii.eqb d c); [discriminate|]. cbn [negb andb]. exact IH.
Qed.

Lemma count_char_join (c : ascii) (l : list string) :
  l <> [] ->
  count_char c (join c l)
  = (List.length l - 1 + list_sum (map (count_char c) l))%nat.
Proof.
  induction l as [|a l IH]; [congruence|]. intros _.
  destruct l as [|b l]; [cbn; lia|].
  change (join c (a :: b :: l)) with (a ++ String c (join c (b :: l)))%string.
  rewrite count_char_app. cbn [count_char]. rewrite Ascii.eqb_refl.
  rewrite IH by discriminate. cbn [List.length map list_sum fold_right].
  change (if true then 1 else 0)%nat with 1%nat. lia.
Qed.

Lemma commas_decimal (z : Z) : count_char "," (decimal z) = 0%nat.
Proof.
  apply count_char_free. apply plain_field_free. apply plain_decimal.
Qed.

Lemma commas_format_f (p : nat) (d : double) :
  count_char "," (format_f p d) = 0%nat.
Proof.
  apply count_char_free. apply plain_field_free. apply plain_format_f.
Qed.

(** X9: the data row is written without quoting: whatever the configuration,
    it has 26 fields plus one for every comma in the five strings it prints
    ([scaling], [slowest_dimension], [layout], [fill_values], [mpi_io]). *)
Theorem csv_row_fields_grow_with_commas
  (config : configuration) (wall_time : double) (fsize : Z) (st : statistics) :
  exists row,
    fprintf csv_row_format (csv_row_args config wall_time fsize st)
    = Some (line row)
    /\ List.length (split_on "," row) = (26 + commas_in_strings config)%nat.
Proof.
  exists (join "," (csv_row_values config wall_time fsize st)).
  split; [apply csv_row_printed|].
  rewrite length_split_on, count_char_join by discriminate.
  unfold csv_row_values, commas_in_strings.
  cbn [List.length map list_sum fold_right].
  rewrite !commas_decimal, !commas_format_f. lia.
Qed.

Example csv_row_with_comma_in_layout :
  option_map (fun r => List.length (split_on "," r))
    (fprintf csv_row_format
       (csv_row_args scenario_comma 12.5%float 4096 (reduce_all sample_timings)))
  = Some 27%nat
  /\ commas_in_strings scenario_comma = 1%nat.
Proof. vm_compute. split; reflexivity. Qed.

(** ** Progress of a run *)

Section Progress.

Variable sanity_check : configuration -> bool.
Variable validate : configuration -> Z -> bool.

Lemma main_trace_live (inp : run_input) (mpi_rank : Z)
  (received config : configuration) (coord extent bounds : Z * Z) :
  (mpi_rank = 0 -> accepted sanity_check validate inp = Some config) ->
  (mpi_rank <> 0 -> received = config) ->
  grid_coordinate config mpi_rank = Some coord ->
  local_extent config = Some extent ->
  libver_bounds (in_libversion inp) config = Passed bounds ->
  let t := fst (main sanity_check validate inp mpi_rank received) in
  count_barriers t = 3%nat /\ bcast_first t = true.
Proof.
  intros H0 H1 G E B.
  destruct (csv_content_defined config (in_wall_time inp) (in_fsize inp)
              (reduce_all (in_timings inp))) as [s Hs].
  destruct bounds as [low high].
  enter_main H0 H1 G E; rewrite B, ?Hs;
    destruct (alignment_increment config >? 1);
    cbn -[reduce_all byte_count compute_rates csv_content]; split; reflexivity.
Qed.

Lemma grid_coordinate_defined (config : configuration) (mpi_rank : Z) :
  proc_cols config <> 0 ->
  exists coord, grid_coordinate config mpi_rank = Some coord.
Proof.
  intros H. unfold grid_coordinate, my_proc_row, my_proc_col, int_div, int_mod.
  destruct (Z.eqb_spec (proc_cols config) 0); [contradiction|]. eauto.
Qed.

Lemma accepted_parsed (inp : run_input) (config : configuration) :
  accepted sanity_check validate inp = Some config ->
  delivered inp = config.
Proof.
  unfold accepted, delivered. destruct (in_parsed inp) as [c|]; [|discriminate].
  destruct (sanity_check c && validate c (in_size inp)); [|discriminate].
  now intros [= ->].
Qed.

Lemma init_process_live (inp : run_input) (config : configuration)
  (bounds : Z * Z) (i : nat) :
  accepted sanity_check validate inp = Some config ->
  proc_cols config <> 0 -> local_extent config <> None ->
  libver_bounds (in_libversion inp) config = Passed bounds ->
  todo (init_process sanity_check validate inp i)
  = fst (main sanity_check validate inp (Z.of_nat i) config)
  /\ count_barriers (todo (init_process sanity_check validate inp i)) = 3%nat
  /\ bcast_first (todo (init_process sanity_check validate inp i)) = true.
Proof.
  intros HA HC HE HB. unfold init_process. cbn [todo].
  rewrite (accepted_parsed inp config HA).
  destruct (grid_coordinate_defined config (Z.of_nat i) HC) as [coord G].
  destruct (local_extent config) as [extent|] eqn:E; [|congruence].
  split; [reflexivity|].
  apply (main_trace_live inp (Z.of_nat i) config config coord extent bounds);
    auto.
Qed.

Lemma init_world_live (inp : run_input) (config : configuration)
  (bounds : Z * Z) :
  accepted sanity_check validate inp = Some config ->
  proc_cols config <> 0 -> local_extent config <> None ->
  libver_bounds (in_libversion inp) config = Passed bounds ->
  live 0 (init_world sanity_check validate inp).
Proof.
  intros HA HC HE HB. unfold init_world. split.
  - apply Forall_map, Forall_forall. intros i _.
    destruct (init_process_live inp config bounds i HA HC HE HB)
      as (_ & H3 & _). rewrite H3. lia.
  - destruct (Z.to_nat (in_size inp)) as [|n]; [exact I|].
    cbn [seq map]. right.
    now destruct (init_process_live inp config bounds 0 HA HC HE HB)
      as (_ & _ & H).
Qed.

End Progress.

Lemma barrier_not_bcast (e : event) : is_barrier e = true -> is_bcast e = false.
Proof. now destruct e. Qed.

Lemma live_step (s : nat) (w w' : world) (l : label) :
  live s w -> step w l w' ->
  live (match l with Barrier => S s | Local _ _ => s end) w'.
Proof.
  intros [HF HR] St. destruct St as [w i l w' T | w NE B].
  - apply try_local_inv in T as (p & e & rest & Hn & Ht & Hb & _ & -> & ->).
    assert (Hp : (count_barriers (todo p) + s = 3)%nat).
    { rewrite Forall_forall in HF. apply HF. eapply nth_error_In; eauto. }
    rewrite Ht in Hp. cbn [count_barriers] in Hp. rewrite Hb in Hp.
    split.
    + apply Forall_replace_nth; [exact HF|]. unfold pass. rewrite Ht.
      cbn [todo]. exact Hp.
    + destruct w as [|root w0]; [now destruct i|]. destruct i as [|j].
      * injection Hn as <-. cbn [replace_nth]. unfold pass. rewrite Ht.
        cbn [done todo]. rewrite existsb_app. cbn [existsb].
        destruct HR as [HR|HR]; [left; now rewrite HR|].
        rewrite Ht in HR. cbn [bcast_first] in HR. rewrite Hb in HR.
        destruct (is_bcast e); [left; now rewrite orb_true_r|right; exact HR].
      * cbn [replace_nth]. exact HR.
  - rewrite forallb_forall in B. split.
    + apply Forall_map, Forall_forall. intros p Hp.
      rewrite Forall_forall in HF. specialize (HF p Hp).
      specialize (B p Hp). unfold at_barrier in B. unfold pass.
      destruct (todo p) as [|e rest]; [discriminate|]. cbn [todo].
      cbn [count_barriers] in HF. rewrite B in HF. lia.
    + destruct w as [|root w0]; [congruence|]. cbn [map].
      specialize (B root (or_introl eq_refl)). unfold at_barrier in B.
      unfold pass. destruct (todo root) as [|e rest]; [discriminate|].
      cbn [done]. left. rewrite existsb_app.
      destruct HR as [HR|HR]; [now rewrite HR|].
      cbn [bcast_first] in HR. rewrite (barrier_not_bcast e B), B in HR.
      discriminate.
Qed.

Lemma execution_live (w w' : world) (tr : list label) :
  execution w tr w' -> forall s, live s w -> live (s + barriers tr) w'.
Proof.
  induction 1 as [w | w w' w'' l tr St Ex IH]; intros s H.
  - cbn [barriers]. now rewrite Nat.add_0_r.
  - pose proof (live_step s w w' l H St) as K. destruct l as [i e|].
    + cbn [barriers]. now apply IH.
    + cbn [barriers]. rewrite Nat.add_succ_r. now apply (IH (S s)).
Qed.

Lemma first_local_none (w : world) (ranks : list nat) :
  first_local w ranks = None -> forall i, In i ranks -> try_local w i = None.
Proof.
  induction ranks as [|j ranks IH]; cbn [first_local]; [intros _ i []|].
  destruct (try_local w j) as [r|] eqn:T; [discriminate|].
  intros H i [<-|Hi]; [exact T | now apply IH].
Qed.

Lemma try_local_none (w : world) (i : nat) (p : process) :
  nth_error w i = Some p -> try_local w i = None ->
  (i = 0%nat \/ bcast_posted w = true) ->
  todo p = [] \/ at_barrier p = true.
Proof.
  intros Hn T G. unfold try_local in T. rewrite Hn in T. unfold at_barrier.
  destruct (todo p) as [|e rest]; [now left|]. right.
  destruct (is_barrier e); [reflexivity|].
  destruct (is_bcast e && negb (Nat.eqb i 0) && negb (bcast_posted w)) eqn:Q;
    [|discriminate].
  apply andb_prop in Q as [Q Q2]. apply andb_prop in Q as [_ Q1].
  destruct G as [-> | G]; [discriminate|]. rewrite G in Q2. discriminate.
Qed.

Lemma In_nth_error_seq {A : Type} (w : list A) (p : A) :
  In p w -> exists i, In i (seq 0 (List.length w)) /\ nth_error w i = Some p.
Proof.
  intros H. apply In_nth_error in H as [i Hi]. exists i. split; [|exact Hi].
  apply in_seq. split; [lia|]. cbn. apply nth_error_Some. congruence.
Qed.

(** A state reached with the invariant is finished or can make a step. *)
Lemma live_progress (s : nat) (w : world) :
  live s w -> finished w = true \/ exists l w', step w l w'.
Proof.
  intros [HF HR].
  destruct (sched_step w) as [[l w']|] eqn:S;
    [right; exists l, w'; now apply sched_step_sound|].
  left. unfold sched_step in S.
  destruct (first_local w (seq 0 (List.length w))) as [r|] eqn:F;
    [discriminate|].
  destruct w as [|root w0]; [reflexivity|].
  destruct (forallb at_barrier (root :: w0)) eqn:B; [discriminate|].
  pose proof (first_local_none _ _ F) as N.
  assert (P : bcast_posted (root :: w0) = true).
  { cbn [bcast_posted]. destruct HR as [HR|HR]; [exact HR|].
    assert (T0 : try_local (root :: w0) 0 = None)
      by (apply N; cbn [List.length seq]; now left).
    destruct (try_local_none (root :: w0) 0 root eq_refl T0 (or_introl eq_refl))
      as [E|E].
    - rewrite E in HR. discriminate.
    - unfold at_barrier in E. destruct (todo root) as [|e rest]; [discriminate|].
      cbn [bcast_first] in HR. rewrite (barrier_not_bcast e E), E in HR.
      discriminate. }
  assert (Q : forall p, In p (root :: w0) -> todo p = [] \/ at_barrier p = true).
  { intros p Hp. apply In_nth_error_seq in Hp as (i & Hi & Hn).
    apply (try_local_none (root :: w0) i p Hn (N i Hi)). now right. }
  rewrite Forall_forall in HF.
  destruct (Nat.eq_dec s 3) as [->|Hs].
  - unfold finished. apply forallb_forall. intros p Hp.
    destruct (Q p Hp) as [E|E]; [now rewrite E|].
    specialize (HF p Hp). unfold at_barrier in E.
    destruct (todo p) as [|e rest]; [reflexivity|].
    cbn [count_barriers] in HF. rewrite E in HF. lia.
  - exfalso. assert (B' : forallb at_barrier (root :: w0) = true).
    { apply forallb_forall. intros p Hp.
      destruct (Q p Hp) as [E|E]; [|exact E].
      specialize (HF p Hp). rewrite E in HF. cbn [count_barriers] in HF. lia. }
    congruence.
Qed.

Lemma events_left_replace (w : world) : forall i p e rest,
  nth_error w i = Some p -> todo p = e :: rest ->
  S (events_left (replace_nth i (pass p) w)) = events_left w.
Proof.
  unfold events_left.
  induction w as [|q w IH]; intros i p e rest Hn Ht; [now destruct i|].
  destruct i as [|j]; cbn [replace_nth map list_sum fold_right].
  - injection Hn as ->. unfold pass. rewrite Ht. cbn [todo List.length]. lia.
  - cbn [nth_error] in Hn. specialize (IH j p e rest Hn Ht).
    unfold list_sum in IH. lia.
Qed.

Lemma events_left_pass (w : world) :
  forallb at_barrier w = true ->
  (events_left (map pass w) + List.length w = events_left w)%nat.
Proof.
  unfold events_left. induction w as [|p w IH]; [reflexivity|].
  cbn [forallb]. intros H. apply andb_prop in H as [Hp Hw].
  specialize (IH Hw). cbn [map list_sum fold_right List.length].
  unfold list_sum in IH. unfold at_barrier in Hp.
  destruct (todo p) as [|e rest] eqn:T; [discriminate|].
  assert (R : todo (pass p) = rest) by (unfold pass; now rewrite T).
  rewrite R. cbn [List.length]. lia.
Qed.

Lemma step_events_left (w w' : world) (l : label) :
  step w l w' -> (events_left w' < events_left w)%nat.
Proof.
  intros St. destruct St as [w i l w' T | w NE B].
  - apply try_local_inv in T as (p & e & rest & Hn & Ht & _ & _ & _ & ->).
    rewrite <- (events_left_replace w i p e rest Hn Ht). lia.
  - pose proof (events_left_pass w B) as H.
    destruct w as [|p w0]; [congruence|]. cbn [List.length] in H. lia.
Qed.

Lemma live_completes (n : nat) : forall s w,
  (events_left w < n)%nat -> live s w ->
  exists tr w', execution w tr w' /\ finished w' = true.
Proof.
  induction n as [|n IH]; intros s w Hn HL; [lia|].
  destruct (live_progress s w HL) as [F | (l & w1 & St)].
  - exists [], w. split; [constructor | exact F].
  - pose proof (step_events_left w w1 l St) as D.
    pose proof (live_step s w w1 l HL St) as HL1.
    destruct (IH _ w1 ltac:(lia) HL1) as (tr & w2 & Ex & F).
    exists (l :: tr), w2. split; [econstructor; eauto | exact F].
Qed.

Lemma history_pass (p : process) : history (pass p) = history p.
Proof.
  unfold history, pass. destruct (todo p) as [|e rest] eqn:T.
  - now rewrite T.
  - cbn [done todo]. now rewrite <- app_assoc.
Qed.

Lemma map_history_replace (w : world) : forall i p,
  nth_error w i = Some p ->
  map history (replace_nth i (pass p) w) = map history w.
Proof.
  induction w as [|q w IH]; intros i p Hn; [now destruct i|].
  destruct i as [|j]; cbn [replace_nth map].
  - injection Hn as ->. now rewrite history_pass.
  - cbn [nth_error] in Hn. now rewrite (IH j p Hn).
Qed.

(** No call is lost or invented: made and pending calls together stay what
    each process started with. *)
Lemma execution_history (w w' : world) (tr : list label) :
  execution w tr w' -> map history w' = map history w.
Proof.
  induction 1 as [w | w w' w'' l tr St Ex IH]; [reflexivity|].
  rewrite IH. destruct St as [w i l w' T | w NE B].
  - apply try_local_inv in T as (p & e & rest & Hn & _ & _ & _ & _ & ->).
    now apply map_history_replace.
  - rewrite map_map. apply map_ext. intros p. apply history_pass.
Qed.

Lemma finished_history (w : world) :
  finished w = true -> map history w = map done w.
Proof.
  unfold finished. rewrite forallb_forall. intros H. apply map_ext_in.
  intros p Hp. specialize (H p Hp). unfold history.
  destruct (todo p); [apply app_nil_r | discriminate].
Qed.

Lemma execution_app (w1 w2 w3 : world) (tr1 tr2 : list label) :
  execution w1 tr1 w2 -> execution w2 tr2 w3 -> execution w1 (tr1 ++ tr2) w3.
Proof.
  induction 1 as [w | w w' w'' l tr St Ex IH]; intros H; [exact H|].
  cbn [app]. econstructor; [exact St | now apply IH].
Qed.

(** X10: a run whose configuration is accepted, with a non-zero column count,
    a defined local extent and bounds that pass the assertions, never
    deadlocks: every state an execution reaches is finished or can make a
    step, and can be continued to a state where every process has made all
    the calls of [main], up to MPI_Finalize. *)
Theorem accepted_run_never_deadlocks
  (sanity_check : configuration -> bool)
  (validate : configuration -> Z -> bool)
  (inp : run_input) (config : configuration) (bounds : Z * Z) :
  accepted sanity_check validate inp = Some config ->
  proc_cols config <> 0 -> local_extent config <> None ->
  libver_bounds (in_libversion inp) config = Passed bounds ->
  forall tr w,
    execution (init_world sanity_check validate inp) tr w ->
    (finished w = true \/ exists l w', step w l w')
    /\ exists tr' w',
         execution w tr' w' /\ finished w' = true
         /\ map done w'
            = map (fun i => fst (main sanity_check validate inp
                                   (Z.of_nat i) config))
                  (seq 0 (Z.to_nat (in_size inp))).
Proof.
  intros HA HC HE HB tr w Ex.
  pose proof (init_world_live sanity_check validate inp config bounds
                HA HC HE HB) as L0.
  pose proof (execution_live _ _ _ Ex 0%nat L0) as L.
  split; [now apply (live_progress _ w L)|].
  destruct (live_completes (S (events_left w)) _ w (Nat.lt_succ_diag_r _) L)
    as (tr' & w' & Ex' & F).
  exists tr', w'. split; [exact Ex'|]. split; [exact F|].
  rewrite <- (finished_history w' F).
  rewrite (execution_history _ _ _ (execution_app _ _ _ _ _ Ex Ex')).
  unfold init_world. rewrite map_map. apply map_ext. intros i.
  unfold history. cbn [done app].
  now destruct (init_process_live sanity_check validate inp config bounds i
                  HA HC HE HB) as (-> & _).
Qed.

Lemma accepted_run_never_deadlocks_two :
  let inp := two_process_input scenario_two in
  let w0 := init_world spec_sanity_check spec_validate inp in
  let tr := fst (run 30 w0) in
  let w := snd (run 30 w0) in
  List.length tr = 30%nat
  /\ (finished w = true \/ exists l w', step w l w')
  /\ exists tr' w',
       execution w tr' w' /\ finished w' = true
       /\ map done w'
          = map (fun i => fst (main spec_sanity_check spec_validate inp
                                 (Z.of_nat i) scenario_two))
                (seq 0 (Z.to_nat (in_size inp))).
Proof.
  intros inp w0 tr w. split; [vm_compute; reflexivity|].
  refine (accepted_run_never_deadlocks spec_sanity_check spec_validate inp
            scenario_two (0, 3) _ _ _ _ tr w _);
    try reflexivity; try discriminate.
  apply run_sound.
Defined.

(** ** A run whose configuration is not accepted *)

Section Rejected.

Variable sanity_check : configuration -> bool.
Variable validate : configuration -> Z -> bool.

(** A rank other than 0 starts with MPI_Init and the broadcast. *)
Lemma main_other_starts (inp : run_input) (mpi_rank : Z)
  (received : configuration) :
  mpi_rank <> 0 ->
  exists rest,
    fst (main sanity_check validate inp mpi_rank received)
    = EvMPI_Init :: EvMPI_Bcast :: rest.
Proof.
  intros Hr. apply Z.eqb_neq in Hr.
  unfold main, set_libver_bounds, reductions, when, defined. rewrite Hr.
  cbn -[grid_coordinate local_extent libver_bounds Z.gtb].
  main_branches; eexists; reflexivity.
Qed.

Lemma init_world_peers_waiting (inp : run_input) :
  peers_waiting (init_world sanity_check validate inp).
Proof.
  unfold init_world. destruct (Z.to_nat (in_size inp)) as [|n]; [exact I|].
  cbn [seq map peers_waiting]. apply Forall_map, Forall_forall.
  intros i Hi. apply in_seq in Hi. unfold init_process. cbn [done todo].
  destruct (main_other_starts inp (Z.of_nat i) (delivered inp)) as [rest ->];
    [lia|]. split; reflexivity.
Qed.

Lemma step_peers_waiting (w w' : world) (l : label) :
  root_silent w -> Forall (in_phase 0) w -> peers_waiting w -> step w l w' ->
  peers_waiting w'.
Proof.
  intros Hs Hp Hw St.
  destruct (step_root_silent w w' l Hs Hp St) as (Hl & _ & _).
  destruct St as [w i l w' T | w NE B]; [|discriminate].
  apply try_local_inv in T as (p & e & rest & Hn & Ht & _ & _ & -> & ->).
  cbn [before_bcast] in Hl. apply andb_prop in Hl as [Hl _].
  apply negb_true_iff in Hl.
  destruct w as [|root peers]; [now destruct i|].
  destruct i as [|j]; cbn [replace_nth peers_waiting]; [exact Hw|].
  cbn [peers_waiting] in Hw. cbn [nth_error] in Hn.
  assert (Hq : existsb is_bcast (done p) = false
               /\ existsb is_bcast (todo p) = true).
  { rewrite Forall_forall in Hw. apply Hw. eapply nth_error_In; eauto. }
  apply Forall_replace_nth; [exact Hw|]. unfold pass. rewrite Ht.
  cbn [done todo]. destruct Hq as [Hd Hto]. rewrite Ht in Hto.
  cbn [existsb] in Hto. rewrite Hl in Hto. split; [|exact Hto].
  rewrite existsb_app. cbn [existsb]. now rewrite Hd, Hl.
Qed.

Lemma execution_peers_waiting (w w' : world) (tr : list label) :
  execution w tr w' ->
  root_silent w -> Forall (in_phase 0) w -> peers_waiting w ->
  peers_waiting w'.
Proof.
  induction 1 as [w | w w' w'' l tr St Ex IH]; intros Hs Hp Hw; [exact Hw|].
  destruct (step_root_silent w w' l Hs Hp St) as (_ & Hs' & Hp').
  exact (IH Hs' Hp' (step_peers_waiting w w' l Hs Hp Hw St)).
Qed.

Lemma main_root_unloadable (inp : run_input) (received : configuration) :
  in_parsed inp = None ->
  main sanity_check validate inp 0 received
  = ([EvMPI_Init; EvIniParse (ini_name (in_argv inp)); cannot_load inp],
     Returned 1).
Proof.
  intros H. unfold main, read_config. change (0 =? 0) with true.
  rewrite H. reflexivity.
Qed.

Lemma unloadable_not_accepted (inp : run_input) :
  in_parsed inp = None -> accepted sanity_check validate inp = None.
Proof. intros H. unfold accepted. now rewrite H. Qed.

(** A process whose calls start with MPI_Init and the broadcast, and that
    has not made the broadcast call, has made no call or MPI_Init alone. *)
Lemma before_bcast_calls (p : process) (rest : list event) :
  history p = EvMPI_Init :: EvMPI_Bcast :: rest ->
  existsb is_bcast (done p) = false ->
  done p = [] \/ done p = [EvMPI_Init].
Proof.
  unfold history. intros Hh Hd.
  destruct (done p) as [|a [|b l]]; [now left | right | exfalso].
  - injection Hh as -> _. reflexivity.
  - injection Hh as -> -> _. cbn in Hd. discriminate.
Qed.

End Rejected.

(** X11: when the configuration file cannot be loaded, rank 0 returns 1
    from [main] after MPI_Init, [ini_parse] and the message of line 61, with
    no call of MPI_Finalize; whatever the interleaving, these three are all
    the calls of rank 0, and no other rank has made any call but MPI_Init:
    none has returned from the broadcast. *)
Theorem unloadable_configuration_stops_at_bcast
  (sanity_check : configuration -> bool)
  (validate : configuration -> Z -> bool) (inp : run_input) :
  in_parsed inp = None ->
  (forall received,
     main sanity_check validate inp 0 received
     = ([EvMPI_Init; EvIniParse (ini_name (in_argv inp)); cannot_load inp],
        Returned 1))
  /\ forall tr w,
       execution (init_world sanity_check validate inp) tr w ->
       match w with
       | [] => in_size inp <= 0
       | root :: peers =>
           done root ++ todo root
           = [EvMPI_Init; EvIniParse (ini_name (in_argv inp)); cannot_load inp]
           /\ existsb is_finalize (done root ++ todo root) = false
           /\ Forall (fun p => done p = [] \/ done p = [EvMPI_Init]) peers
       end.
Proof.
  intros H. split; [intros; now apply main_root_unloadable|].
  intros tr w Ex.
  pose proof (unloadable_not_accepted sanity_check validate inp H) as HA.
  pose proof (execution_history _ _ _ Ex) as Hh.
  pose proof (execution_peers_waiting _ _ _ Ex
                (init_world_root_silent sanity_check validate inp HA)
                (init_world_in_phase sanity_check validate inp)
                (init_world_peers_waiting sanity_check validate inp)) as Hw.
  assert (Hlen : List.length w = Z.to_nat (in_size inp)).
  { rewrite <- (length_map history w), Hh, length_map. unfold init_world.
    now rewrite length_map, length_seq. }
  unfold init_world in Hh.
  destruct w as [|root peers]; [cbn in Hlen; lia|].
  destruct (Z.to_nat (in_size inp)) as [|n] eqn:N; [discriminate|].
  cbn [seq map] in Hh. injection Hh as Hroot Hpeers.
  unfold history in Hroot. cbn [done todo app init_process Z.of_nat] in Hroot.
  rewrite (main_root_unloadable sanity_check validate inp _ H) in Hroot.
  cbn [fst] in Hroot. rewrite Hroot.
  split; [reflexivity|]. split; [reflexivity|].
  cbn [peers_waiting] in Hw. rewrite Forall_forall in Hw.
  apply Forall_forall. intros p Hp.
  assert (Hin : In (history p) (map history peers)) by now apply in_map.
  rewrite Hpeers, map_map in Hin. apply in_map_iff in Hin as (i & Hi & Hs).
  apply in_seq in Hs. unfold history at 1 in Hi. cbn [init_process done todo app] in Hi.
  destruct (main_other_starts sanity_check validate inp (Z.of_nat i)
              (delivered inp)) as [rest Hr]; [lia|].
  apply (before_bcast_calls p rest); [now rewrite <- Hi, Hr|].
  now apply Hw.
Qed.

Lemma unloadable_configuration_two_processes :
  let w0 := init_world spec_sanity_check spec_validate unreadable_input in
  let w := snd (run 100 w0) in
  in_parsed unreadable_input = None
  /\ map done w
     = [[EvMPI_Init; EvIniParse "missing.ini"; cannot_load unreadable_input];
        [EvMPI_Init]]
  /\ match w with
     | [] => in_size unreadable_input <= 0
     | root :: peers =>
         done root ++ todo root
         = [EvMPI_Init; EvIniParse (ini_name (in_argv unreadable_input));
            cannot_load unreadable_input]
         /\ existsb is_finalize (done root ++ todo root) = false
         /\ Forall (fun p => done p = [] \/ done p = [EvMPI_Init]) peers
     end.
Proof.
  intros w0 w. split; [reflexivity|]. split; [vm_compute; reflexivity|].
  refine (proj2 (unloadable_configuration_stops_at_bcast spec_sanity_check
                   spec_validate unreadable_input _) (fst (run 100 w0)) w _);
    [reflexivity | apply run_sound].
Defined.

(** X12: the complete run of one process.  With the accepted configuration,
    a defined grid coordinate and extent and bounds that pass the
    assertions, [main] returns 0 after broadcast, barrier, write test,
    barrier, read test, barrier, in this order; the read test gets the
    coordinate and extent the write test got; rank 0, and no other rank,
    then queries the file size, and it prints the summary of lines 138-172
    and writes the CSV record of lines 194-219 to [csv_file]. *)
Theorem main_returns_after_write_and_read
  (sanity_check : configuration -> bool)
  (validate : configuration -> Z -> bool)
  (inp : run_input) (mpi_rank : Z) (received config : configuration)
  (coord extent bounds : Z * Z) :
  (mpi_rank = 0 -> accepted sanity_check validate inp = Some config) ->
  (mpi_rank <> 0 -> received = config) ->
  grid_coordinate config mpi_rank = Some coord ->
  local_extent config = Some extent ->
  libver_bounds (in_libversion inp) config = Passed bounds ->
  let t := fst (main sanity_check validate inp mpi_rank received) in
  snd (main sanity_check validate inp mpi_rank received) = Returned 0
  /\ filter is_milestone t
     = [EvMPI_Bcast; EvMPI_Barrier;
        EvWriteTest (fst coord) (snd coord) (fst extent) (snd extent);
        EvMPI_Barrier;
        EvReadTest (fst coord) (snd coord) (fst extent) (snd extent);
        EvMPI_Barrier]
       ++ (if mpi_rank =? 0 then [EvFileSize (hdf5_file config)] else [])
       ++ [EvMPI_Finalize]
  /\ (mpi_rank = 0 ->
      exists st rt content,
        rank0_summary config (in_timings inp) = Some (st, rt)
        /\ csv_content config (in_wall_time inp) (in_fsize inp) st
           = Some content
        /\ filter root_only t
           = [EvIniParse (ini_name (in_argv inp)); EvSanityCheck; EvValidate;
              EvPrintLibver (fst bounds) (snd bounds);
              EvPrintConfig config (strong_scaling_flg config);
              EvFileSize (hdf5_file config);
              EvPrintReport st rt; EvFwrite (csv_file config) content]).
Proof.
  intros H0 H1 G E B.
  destruct (csv_content_defined config (in_wall_time inp) (in_fsize inp)
              (reduce_all (in_timings inp))) as [s Hs].
  destruct bounds as [low high].
  assert (Sm : rank0_summary config (in_timings inp)
               = Some (reduce_all (in_timings inp),
                       compute_rates
                         (byte_count config (fst extent) (snd extent))
                         (reduce_all (in_timings inp)))).
  { apply rank0_summary_eq. rewrite E. now destruct extent. }
  enter_main H0 H1 G E; rewrite B, ?Hs;
    destruct (alignment_increment config >? 1);
    cbn -[reduce_all byte_count compute_rates csv_content];
    (split; [reflexivity|]); (split; [reflexivity|]); intros K;
    try contradiction;
    exists (reduce_all (in_timings inp)),
           (compute_rates (byte_count config (fst extent) (snd extent))
              (reduce_all (in_timings inp))), s;
    (split; [exact Sm|]); (split; [exact Hs|]); reflexivity.
Qed.

Lemma main_returns_rank0_two :
  let inp := two_process_input scenario_two in
  let t := fst (main spec_sanity_check spec_validate inp 0 scenario_two) in
  snd (main spec_sanity_check spec_validate inp 0 scenario_two) = Returned 0
  /\ filter is_milestone t
     = [EvMPI_Bcast; EvMPI_Barrier; EvWriteTest 0 0 20 10; EvMPI_Barrier;
        EvReadTest 0 0 20 10; EvMPI_Barrier;
        EvFileSize (hdf5_file scenario_two); EvMPI_Finalize]
  /\ (0 = 0 ->
      exists st rt content,
        rank0_summary scenario_two (in_timings inp) = Some (st, rt)
        /\ csv_content scenario_two (in_wall_time inp) (in_fsize inp) st
           = Some content
        /\ filter root_only t
           = [EvIniParse (ini_name (in_argv inp)); EvSanityCheck; EvValidate;
              EvPrintLibver 0 3;
              EvPrintConfig scenario_two (strong_scaling_flg scenario_two);
              EvFileSize (hdf5_file scenario_two);
              EvPrintReport st rt; EvFwrite (csv_file scenario_two) content]).
Proof.
  intros inp.
  refine (main_returns_after_write_and_read spec_sanity_check spec_validate
            inp 0 scenario_two scenario_two (0, 0) (20, 10) (0, 3)
            _ _ _ _ _);
    reflexivity.
Defined.

(** ** The subregions handed to the write and read tests *)

(** X13: in a run with a validated grid ([proc_rows * proc_cols] processes,
    positive column count), every rank calls the write test and the read test
    with its grid coordinate (rank / proc_cols, rank % proc_cols), which lies
    inside the grid, and with the same local extent as every other rank; two
    different ranks never get the same coordinate. *)
Theorem test_calls_get_distinct_grid_cells
  (sanity_check : configuration -> bool)
  (validate : configuration -> Z -> bool)
  (inp : run_input) (config : configuration) (extent bounds : Z * Z) :
  accepted sanity_check validate inp = Some config ->
  0 < proc_cols config ->
  proc_rows config * proc_cols config = in_size inp ->
  local_extent config = Some extent ->
  libver_bounds (in_libversion inp) config = Passed bounds ->
  (forall k, 0 <= k < in_size inp ->
     let t := fst (main sanity_check validate inp k config) in
     let row := k / proc_cols config in
     let col := k mod proc_cols config in
     In (EvWriteTest row col (fst extent) (snd extent)) t
     /\ In (EvReadTest row col (fst extent) (snd extent)) t
     /\ 0 <= row < proc_rows config /\ 0 <= col < proc_cols config)
  /\ (forall k1 k2, 0 <= k1 < in_size inp -> 0 <= k2 < in_size inp ->
        k1 <> k2 ->
        (k1 / proc_cols config, k1 mod proc_cols config)
        <> (k2 / proc_cols config, k2 mod proc_cols config)).
Proof.
  intros HA Hc Hsz HE HB. split.
  - intros k Hk t row col.
    assert (G : grid_coordinate config k = Some (row, col))
      by (apply grid_coordinate_nonneg; lia).
    destruct (main_completes sanity_check validate inp k config config
                (row, col) extent bounds (fun _ => HA) (fun _ => eq_refl)
                G HE HB) as (_ & M & _).
    fold t in M. cbn [fst snd] in M.
    assert (W : In (EvWriteTest row col (fst extent) (snd extent))
                  (filter is_milestone t))
      by (rewrite M; right; right; left; reflexivity).
    assert (R : In (EvReadTest row col (fst extent) (snd extent))
                  (filter is_milestone t))
      by (rewrite M; right; right; right; right; left; reflexivity).
    apply filter_In in W as [W _]. apply filter_In in R as [R _].
    split; [exact W|]. split; [exact R|]. unfold row, col. split.
    + split; [apply Z.div_pos; lia | apply Z.div_lt_upper_bound; lia].
    + apply Z.mod_pos_bound; lia.
  - intros k1 k2 H1 H2 NE [= Hq Hm]. apply NE.
    rewrite (Z.div_mod k1 (proc_cols config)),
            (Z.div_mod k2 (proc_cols config)) by lia.
    now rewrite Hq, Hm.
Qed.

Lemma test_calls_two_processes :
  let inp := two_process_input scenario_two in
  (forall k, 0 <= k < in_size inp ->
     let t := fst (main spec_sanity_check spec_validate inp k scenario_two) in
     let row := k / proc_cols scenario_two in
     let col := k mod proc_cols scenario_two in
     In (EvWriteTest row col 20 10) t
     /\ In (EvReadTest row col 20 10) t
     /\ 0 <= row < proc_rows scenario_two
     /\ 0 <= col < proc_cols scenario_two)
  /\ (forall k1 k2, 0 <= k1 < in_size inp -> 0 <= k2 < in_size inp ->
        k1 <> k2 ->
        (k1 / proc_cols scenario_two, k1 mod proc_cols scenario_two)
        <> (k2 / proc_cols scenario_two, k2 mod proc_cols scenario_two)).
Proof.
  intros inp.
  refine (test_calls_get_distinct_grid_cells spec_sanity_check spec_validate
            inp scenario_two (20, 10) (0, 3) _ _ _ _ _);
    try reflexivity.
Defined.
